(** * vercel-draw-lots: the state codec and the draw transition of pages/index.js

    A shallow embedding of [base64UrlEncode], [base64UrlDecode], [encodeState],
    [decodeState], [createInitialLink] and [drawOne], with the platform
    functions they call ([atob], [btoa], [decodeURIComponent], [parseInt],
    [Number.prototype.toString], the [match] of the compact pattern and the
    32-bit bit operators) written out next to them.

    Conventions of the model.
    - A JavaScript number is an integer of [Z] or [NaN].  Integers are exact:
      the rounding of doubles beyond 2^53, fractions and the infinities are
      not represented.
    - A token (the [?state=] parameter) is a [string] whose characters are
      code units below 256.  A text decoded by [decodeURIComponent] is kept
      as its UTF-8 bytes.
    - A function that can throw returns a [completion].
    - [JSON.parse], [JSON.stringify] and the conversion of strings, arrays and
      objects to numbers are the platform's and are taken as parameters. *)

From Stdlib Require Import ZArith List String Ascii Bool Lia QArith Qround.
From Stdlib Require Import DecimalString Permutation.
Import ListNotations.

Set Warnings "-register-all".

Local Open Scope string_scope.
Local Open Scope Z_scope.

(** ** JavaScript values *)

Inductive num : Type :=
| NaN
| Int (z : Z).

Inductive value : Type :=
| VUndefined
| VNull
| VBool (b : bool)
| VNum (n : num)
| VStr (s : string)
| VArr (xs : list value)
| VObj (fields : list (string * value)).

(** Abrupt completion: [Throw] is an exception that nothing has caught yet. *)
Inductive completion (A : Type) : Type :=
| Normal (a : A)
| Throw.
Arguments Normal {A} a.
Arguments Throw {A}.

Definition bind {A B} (c : completion A) (k : A -> completion B) : completion B :=
  match c with
  | Normal a => k a
  | Throw => Throw
  end.

Notation "'let*' x ':=' c 'in' k" := (bind c (fun x => k))
  (at level 10, x name, c at level 100, k at level 200).

(** ToBoolean. *)
Definition truthy (v : value) : bool :=
  match v with
  | VUndefined | VNull => false
  | VBool b => b
  | VNum NaN => false
  | VNum (Int z) => negb (z =? 0)
  | VStr s => negb (String.eqb s "")
  | VArr _ | VObj _ => true
  end.

Definition nullish (v : value) : bool :=
  match v with
  | VUndefined | VNull => true
  | _ => false
  end.

(** [typeof v === 'number'] *)
Definition is_number (v : value) : bool :=
  match v with
  | VNum _ => true
  | _ => false
  end.

Fixpoint lookup (k : string) (fields : list (string * value)) : value :=
  match fields with
  | [] => VUndefined
  | (k', v) :: rest => if String.eqb k k' then v else lookup k rest
  end.

(** [v.k] for one of the data property names the program reads ([mask],
    [items], [meta], [createdAt], [id], [label]): a TypeError on [null] and
    [undefined], [undefined] on the other primitives and on arrays. *)
Definition get (v : value) (k : string) : completion value :=
  match v with
  | VUndefined | VNull => Throw
  | VObj fields => Normal (lookup k fields)
  | _ => Normal VUndefined
  end.

(** [v?.k] *)
Definition get_opt (v : value) (k : string) : value :=
  match v with
  | VObj fields => lookup k fields
  | _ => VUndefined
  end.

(** Strict equality [===] of two values, on the values the program compares
    (strings and [undefined] on the right-hand side). *)
Definition strict_eq_str (v : value) (s : string) : bool :=
  match v with
  | VStr s' => String.eqb s' s
  | _ => false
  end.

Definition strict_eq_undefined (v : value) : bool :=
  match v with
  | VUndefined => true
  | _ => false
  end.

(** ** Characters *)

Definition code (c : ascii) : Z := Z.of_N (N_of_ascii c).
Definition chr (z : Z) : ascii := ascii_of_N (Z.to_N z).

Definition in_range (lo hi : Z) (c : ascii) : bool :=
  (lo <=? code c) && (code c <=? hi).

Definition is_digit (c : ascii) : bool := in_range 48 57 c.
Definition is_lower (c : ascii) : bool := in_range 97 122 c.
Definition is_upper (c : ascii) : bool := in_range 65 90 c.

(** The class [[0-9a-z]] under the [i] flag. *)
Definition is_alnum (c : ascii) : bool := is_digit c || is_lower c || is_upper c.

Fixpoint span (p : ascii -> bool) (s : string) : string * string :=
  match s with
  | EmptyString => (EmptyString, EmptyString)
  | String c rest =>
      if p c then let (a, b) := span p rest in (String c a, b)
      else (EmptyString, s)
  end.

Fixpoint forall_chars (p : ascii -> bool) (s : string) : bool :=
  match s with
  | EmptyString => true
  | String c rest => p c && forall_chars p rest
  end.

Fixpoint map_chars (f : ascii -> ascii) (s : string) : string :=
  match s with
  | EmptyString => EmptyString
  | String c rest => String (f c) (map_chars f rest)
  end.

Fixpoint filter_chars (p : ascii -> bool) (s : string) : string :=
  match s with
  | EmptyString => EmptyString
  | String c rest => if p c then String c (filter_chars p rest) else filter_chars p rest
  end.

Definition len (s : string) : Z := Z.of_nat (String.length s).

(** ** Radix 36: [Number.prototype.toString(36)] and [parseInt(_, 36)] *)

Definition digit36 (d : Z) : ascii :=
  if d <? 10 then chr (48 + d) else chr (87 + d).

(** The base-36 digits of [n >= 0], most significant first. *)
Fixpoint digits36 (fuel : nat) (n : Z) : string :=
  match fuel with
  | O => String (digit36 (n mod 36)) EmptyString
  | S fuel' =>
      if n <? 36 then String (digit36 n) EmptyString
      else digits36 fuel' (n / 36) ++ String (digit36 (n mod 36)) EmptyString
  end.

Definition nat36 (n : Z) : string := digits36 (Z.to_nat (Z.log2 n)) n.

Definition toString36 (n : num) : string :=
  match n with
  | NaN => "NaN"
  | Int z => if z <? 0 then "-" ++ nat36 (- z) else nat36 z
  end.

(** The value of a character as a digit of radix 36. *)
Definition digit_value (c : ascii) : option Z :=
  if is_digit c then Some (code c - 48)
  else if is_lower c then Some (code c - 87)
  else if is_upper c then Some (code c - 55)
  else None.

Definition is_digit36 (c : ascii) : bool :=
  match digit_value c with Some _ => true | None => false end.

Fixpoint digits_value (s : string) (acc : Z) : Z :=
  match s with
  | EmptyString => acc
  | String c rest =>
      digits_value rest (acc * 36 + match digit_value c with Some d => d | None => 0 end)
  end.

(** StrWhiteSpaceChar, below 256. *)
Definition is_str_whitespace (c : ascii) : bool :=
  in_range 9 13 c || (code c =? 32) || (code c =? 160).

Fixpoint trim_start (s : string) : string :=
  match s with
  | String c rest => if is_str_whitespace c then trim_start rest else s
  | EmptyString => EmptyString
  end.

Definition split_sign (s : string) : Z * string :=
  match s with
  | String "-" rest => (-1, rest)
  | String "+" rest => (1, rest)
  | _ => (1, s)
  end.

(** [parseInt(s, 36)]: leading white space, a sign, then the longest prefix
    of radix-36 digits; [NaN] when that prefix is empty. *)
Definition parseInt36 (s : string) : num :=
  let (sign, s2) := split_sign (trim_start s) in
  let (ds, _) := span is_digit36 s2 in
  match ds with
  | EmptyString => NaN
  | _ => Int (sign * digits_value ds 0)
  end.

(** ** 32-bit integer operators *)

Definition ToInt32 (z : Z) : Z :=
  let m := z mod 2 ^ 32 in
  if m <? 2 ^ 31 then m else m - 2 ^ 32.

Definition ToInt32_num (n : num) : Z :=
  match n with
  | NaN => 0
  | Int z => ToInt32 z
  end.

(** [a >> b], [a << b], [a & b], [a | b], [~a] *)
Definition sar (a b : num) : Z :=
  Z.shiftr (ToInt32_num a) (ToInt32_num b mod 32).
Definition shl (a b : num) : Z :=
  ToInt32 (Z.shiftl (ToInt32_num a) (ToInt32_num b mod 32)).
Definition band (a b : num) : Z := Z.land (ToInt32_num a) (ToInt32_num b).
Definition bor (a b : num) : Z := Z.lor (ToInt32_num a) (ToInt32_num b).
Definition bnot (a : num) : Z := Z.lnot (ToInt32_num a).

(** ** Base64: [atob] and [btoa] *)

Definition b64_index (c : ascii) : option Z :=
  if is_upper c then Some (code c - 65)
  else if is_lower c then Some (code c - 71)
  else if is_digit c then Some (code c + 4)
  else if code c =? 43 then Some 62
  else if code c =? 47 then Some 63
  else None.

Definition is_b64 (c : ascii) : bool :=
  match b64_index c with Some _ => true | None => false end.

Definition b64_char (i : Z) : ascii :=
  if i <? 26 then chr (65 + i)
  else if i <? 52 then chr (71 + i)
  else if i <? 62 then chr (i - 4)
  else if i =? 62 then "+"%char
  else "/"%char.

Definition sextet (c : ascii) : Z :=
  match b64_index c with Some i => i | None => 0 end.

(** ASCII white space of the forgiving-base64 decoder. *)
Definition is_ascii_whitespace (c : ascii) : bool :=
  (code c =? 9) || (code c =? 10) || (code c =? 12) || (code c =? 13) || (code c =? 32).

Fixpoint ends_with_eq (s : string) : bool :=
  match s with
  | EmptyString => false
  | String c EmptyString => code c =? 61
  | String _ rest => ends_with_eq rest
  end.

Fixpoint drop_last (s : string) : string :=
  match s with
  | EmptyString => EmptyString
  | String _ EmptyString => EmptyString
  | String c rest => String c (drop_last rest)
  end.

(** When the length is a multiple of four, one or two [=] at the end go. *)
Definition strip_padding (s : string) : string :=
  if (len s mod 4 =? 0) && ends_with_eq s then
    let s1 := drop_last s in
    if ends_with_eq s1 then drop_last s1 else s1
  else s.

Fixpoint b64_bytes (s : string) : string :=
  match s with
  | String a (String b (String c (String d rest))) =>
      let n := sextet a * 262144 + sextet b * 4096 + sextet c * 64 + sextet d in
      String (chr (n / 65536)) (String (chr (n / 256 mod 256)) (String (chr (n mod 256))
        (b64_bytes rest)))
  | String a (String b (String c EmptyString)) =>
      let n := sextet a * 4096 + sextet b * 64 + sextet c in
      String (chr (n / 1024)) (String (chr (n / 4 mod 256)) EmptyString)
  | String a (String b EmptyString) =>
      let n := sextet a * 64 + sextet b in
      String (chr (n / 16)) EmptyString
  | _ => EmptyString
  end.

(** [atob]: forgiving-base64 decode; [Throw] is its InvalidCharacterError. *)
Definition atob (data : string) : completion string :=
  let d1 := filter_chars (fun c => negb (is_ascii_whitespace c)) data in
  let d2 := strip_padding d1 in
  if len d2 mod 4 =? 1 then Throw
  else if negb (forall_chars is_b64 d2) then Throw
  else Normal (b64_bytes d2).

Fixpoint b64_chars (s : string) : string :=
  match s with
  | String a (String b (String c rest)) =>
      let n := code a * 65536 + code b * 256 + code c in
      String (b64_char (n / 262144)) (String (b64_char (n / 4096 mod 64))
        (String (b64_char (n / 64 mod 64)) (String (b64_char (n mod 64)) (b64_chars rest))))
  | String a (String b EmptyString) =>
      let n := code a * 1024 + code b * 4 in
      String (b64_char (n / 4096)) (String (b64_char (n / 64 mod 64))
        (String (b64_char (n mod 64)) "="))
  | String a EmptyString =>
      let n := code a * 16 in
      String (b64_char (n / 64)) (String (b64_char (n mod 64)) "==")
  | EmptyString => EmptyString
  end.

(** [btoa] on a string of bytes (every code unit of the model is below 256,
    so it does not throw). *)
Definition btoa (s : string) : string := b64_chars s.

(** ** Percent escapes and UTF-8: [decodeURIComponent] *)

Definition hex_digit (d : Z) : ascii :=
  if d <? 10 then chr (48 + d) else chr (87 + d).

Definition hex_value (c : ascii) : option Z :=
  if is_digit c then Some (code c - 48)
  else if in_range 97 102 c then Some (code c - 87)
  else if in_range 65 70 c then Some (code c - 55)
  else None.

(** ['%' + ('00' + ch.charCodeAt(0).toString(16)).slice(-2)] *)
Definition percent (ch : ascii) : string :=
  String "%" (String (hex_digit (code ch / 16)) (String (hex_digit (code ch mod 16)) EmptyString)).

Fixpoint percent_all (s : string) : string :=
  match s with
  | EmptyString => EmptyString
  | String ch rest => percent ch ++ percent_all rest
  end.

(** One unit of an escaped string: a character written as itself, or the
    byte of a [%xx] escape. *)
Inductive unit_ : Type :=
| Lit (c : ascii)
| Esc (b : Z).

Fixpoint unescape (s : string) : completion (list unit_) :=
  match s with
  | EmptyString => Normal []
  | String "%" (String h (String l rest)) =>
      match hex_value h, hex_value l with
      | Some x, Some y => let* us := unescape rest in Normal (Esc (x * 16 + y) :: us)
      | _, _ => Throw
      end
  | String "%" _ => Throw
  | String c rest => let* us := unescape rest in Normal (Lit c :: us)
  end.

Definition is_cont (b : Z) : bool := (128 <=? b) && (b <=? 191).

Definition byte_str (b : Z) : string := String (chr b) EmptyString.

(** The characters of a unit list, as UTF-8 bytes.  An escaped byte of 128
    or more starts a sequence of two to four escaped bytes, which has to be
    the UTF-8 encoding of one code point; a URIError otherwise. *)
Fixpoint utf8_units (us : list unit_) : completion string :=
  match us with
  | [] => Normal EmptyString
  | Lit c :: rest =>
      let* r := utf8_units rest in
      if code c <? 128 then Normal (String c r)
      else Normal (byte_str (192 + code c / 64) ++ byte_str (128 + code c mod 64) ++ r)
  | Esc b :: rest =>
      if b <? 128 then let* r := utf8_units rest in Normal (String (chr b) r)
      else if b <? 192 then Throw
      else if b <? 224 then
        match rest with
        | Esc b1 :: rest1 =>
            if is_cont b1 && (128 <=? (b - 192) * 64 + (b1 - 128)) then
              let* r := utf8_units rest1 in Normal (byte_str b ++ byte_str b1 ++ r)
            else Throw
        | _ => Throw
        end
      else if b <? 240 then
        match rest with
        | Esc b1 :: Esc b2 :: rest2 =>
            let v := (b - 224) * 4096 + (b1 - 128) * 64 + (b2 - 128) in
            if is_cont b1 && is_cont b2 && (2048 <=? v) && negb ((55296 <=? v) && (v <=? 57343)) then
              let* r := utf8_units rest2 in Normal (byte_str b ++ byte_str b1 ++ byte_str b2 ++ r)
            else Throw
        | _ => Throw
        end
      else if b <? 248 then
        match rest with
        | Esc b1 :: Esc b2 :: Esc b3 :: rest3 =>
            let v := (b - 240) * 262144 + (b1 - 128) * 4096 + (b2 - 128) * 64 + (b3 - 128) in
            if is_cont b1 && is_cont b2 && is_cont b3 && (65536 <=? v) && (v <=? 1114111) then
              let* r := utf8_units rest3 in
              Normal (byte_str b ++ byte_str b1 ++ byte_str b2 ++ byte_str b3 ++ r)
            else Throw
        | _ => Throw
        end
      else Throw
  end.

Definition decodeURIComponent (s : string) : completion string :=
  let* us := unescape s in utf8_units us.

(** ** The helpers of pages/index.js *)

Definition url_safe (c : ascii) : ascii :=
  if code c =? 43 then "-"%char else if code c =? 47 then "_"%char else c.

Definition url_unsafe (c : ascii) : ascii :=
  if code c =? 45 then "+"%char else if code c =? 95 then "/"%char else c.

Fixpoint strip_eq_end (s : string) : string :=
  match s with
  | EmptyString => EmptyString
  | String c rest =>
      if forall_chars (fun x => code x =? 61) s then EmptyString
      else String c (strip_eq_end rest)
  end.

(** [base64UrlEncode(str)]: [encodeURIComponent] followed by the replacement
    of every escape by its byte leaves the UTF-8 bytes of [str], which is how
    the model keeps a text; [encodeURIComponent] throws on a text that is not
    well formed, and the [catch] returns the empty string. *)
Definition base64UrlEncode (str : string) : string :=
  match decodeURIComponent (percent_all str) with
  | Throw => ""
  | Normal _ => strip_eq_end (map_chars url_safe (btoa str))
  end.

(** [while (s.length % 4) s += '='] *)
Definition pad4 (s : string) : string :=
  let r := len s mod 4 in
  if r =? 1 then s ++ "==="
  else if r =? 2 then s ++ "=="
  else if r =? 3 then s ++ "="
  else s.

(** [base64UrlDecode(s)]: [None] is the [null] it returns, on the empty
    string and from its [catch]. *)
Definition base64UrlDecode (s : string) : option string :=
  if String.eqb s "" then None
  else
    let s1 := pad4 (map_chars url_unsafe s) in
    match (let* str := atob s1 in decodeURIComponent (percent_all str)) with
    | Normal r => Some r
    | Throw => None
    end.

(** ** The compact pattern *)

Definition is_m (c : ascii) : bool := (code c =? 109) || (code c =? 77).
Definition is_t (c : ascii) : bool := (code c =? 116) || (code c =? 84).
Definition is_dot (c : ascii) : bool := code c =? 46.

(** [String(s).match(/^m([0-9a-z]+)(?:\.t([0-9a-z]+))?$/i)]: the groups
    [m[1]] and [m[2]] of the match, [None] when the pattern does not match.
    The first group is greedy and what follows it starts with a character
    outside its class, so no shorter first group can match. *)
Definition match_compact (s : string) : option (string * option string) :=
  match s with
  | EmptyString => None
  | String c0 rest =>
      if is_m c0 then
        let (g1, r1) := span is_alnum rest in
        if String.eqb g1 "" then None
        else
          match r1 with
          | EmptyString => Some (g1, None)
          | String d (String t r2) =>
              if is_dot d && is_t t then
                let (g2, r3) := span is_alnum r2 in
                if negb (String.eqb g2 "") && String.eqb r3 "" then Some (g1, Some g2)
                else None
              else None
          | _ => None
          end
      else None
  end.

(** ** The pool *)

Definition DEFAULT_THEMES : list string :=
  [ "Basketball"; "Baseball"; "Swimming"; "Golf"; "Gym";
    "Badminton"; "Cycling"; "Soccer"; "Fencing" ].

(** [DEFAULT_THEMES[i]] *)
Definition theme (i : nat) : value :=
  match nth_error DEFAULT_THEMES i with
  | Some label => VStr label
  | None => VUndefined
  end.

(** [String(i)] for an index. *)
Definition String_of_index (i : nat) : string :=
  NilEmpty.string_of_uint (Nat.to_uint i).

Definition index_num (i : nat) : num := Int (Z.of_nat i).

(** [(mask >> index) & 1] as a condition. *)
Definition bit_set (mask : num) (index : nat) : bool :=
  negb (band (Int (sar mask (index_num index))) (Int 1) =? 0).

(** [a || 0] on a number. *)
Definition or_zero (a : num) : num :=
  if truthy (VNum a) then a else Int 0.

(** [a * 1000] *)
Definition times (a : num) (k : Z) : num :=
  match a with
  | NaN => NaN
  | Int z => Int (z * k)
  end.

(** [Math.floor(a / 1000)] *)
Definition floor_div (a : num) (k : Z) : num :=
  match a with
  | NaN => NaN
  | Int z => Int (z / k)
  end.

Fixpoint mapi {A B} (f : A -> nat -> B) (i : nat) (xs : list A) : list B :=
  match xs with
  | [] => []
  | x :: rest => f x i :: mapi f (S i) rest
  end.

Section Program.

(** [JSON.parse]; [Throw] is its SyntaxError. *)
Variable JSON_parse : string -> completion value.

(** [JSON.stringify], as the string [encodeURIComponent] makes of its result. *)
Variable JSON_stringify : value -> completion string.

(** ToNumber on a string, an array or an object. *)
Variable ToNumber_object : value -> num.

Definition ToNumber (v : value) : num :=
  match v with
  | VUndefined => NaN
  | VNull => Int 0
  | VBool b => Int (if b then 1 else 0)
  | VNum n => n
  | _ => ToNumber_object v
  end.

(** *** encodeState *)

Definition encodeState (obj : value) : string :=
  match get_opt obj "mask" with
  | VNum mask =>
      let maskStr := toString36 mask in
      let createdAt := get_opt (get_opt obj "meta") "createdAt" in
      let time :=
        if truthy createdAt then toString36 (floor_div (ToNumber createdAt) 1000)
        else "" in
      "m" ++ maskStr ++ (if truthy (VStr time) then ".t" ++ time else "")
  | _ =>
      match JSON_stringify obj with
      | Normal json => base64UrlEncode json
      | Throw => ""
      end
  end.

(** *** decodeState *)

(** The [items] array the compact branch rebuilds from the mask. *)
Definition compact_items (mask : num) : list value :=
  filter truthy
    (mapi (fun label index =>
             if bit_set mask index
             then VObj [("id", VStr (String_of_index index)); ("label", VStr label)]
             else VNull)
          0%nat DEFAULT_THEMES).

(** The legacy attempt: [Some v] when [JSON.parse] returned [v]. *)
Definition legacy_json (s : string) : option value :=
  match base64UrlDecode s with
  | Some maybeJson =>
      if truthy (VStr maybeJson) then
        match JSON_parse maybeJson with
        | Normal v => Some v
        | Throw => None
        end
      else None
  | None => None
  end.

(** The object the compact branch returns for the groups [m[1]] and [m[2]]. *)
Definition compact_value (m1 : string) (m2 : option string) : value :=
  let mask := or_zero (parseInt36 m1) in
  let createdAt :=
    match m2 with
    | Some digits => VNum (times (parseInt36 digits) 1000)
    | None => VUndefined
    end in
  VObj [("mask", VNum mask);
        ("items", VArr (compact_items mask));
        ("meta", VObj [("createdAt", createdAt)])].

(** The compact attempt: the object built from a match of the pattern. *)
Definition compact_state (s : string) : option value :=
  match match_compact s with
  | Some (m1, m2) => Some (compact_value m1 m2)
  | None => None
  end.

Definition decodeState (s : string) : value :=
  if negb (truthy (VStr s)) then VNull
  else
    match legacy_json s with
    | Some v => v
    | None =>
        match compact_state s with
        | Some v => v
        | None => VNull
        end
    end.

(** *** createInitialLink *)

Definition full_mask : Z := shl (Int 1) (index_num (List.length DEFAULT_THEMES)) - 1.

Definition initial_payload (now : Z) : value :=
  VObj [("mask", VNum (Int full_mask)); ("meta", VObj [("createdAt", VNum (Int now))])].

(** The encoded state of the link the host creates at time [now]. *)
Definition createInitialLink (now : Z) : string := encodeState (initial_payload now).

(** *** drawOne *)

(** [x.id === String(i) || x.label === DEFAULT_THEMES[i]] *)
Definition item_matches (i : nat) (x : value) : completion bool :=
  let* id := get x "id" in
  if strict_eq_str id (String_of_index i) then Normal true
  else
    let* label := get x "label" in
    match theme i with
    | VStr t => Normal (strict_eq_str label t)
    | _ => Normal (strict_eq_undefined label)
    end.

(** [Array.prototype.some] *)
Fixpoint some (f : value -> completion bool) (xs : list value) : completion bool :=
  match xs with
  | [] => Normal false
  | x :: rest => let* b := f x in if b then Normal true else some f rest
  end.

(** [decoded.items?.some(x => ...)] as a condition; calling [some] on a value
    that is not an array is a TypeError. *)
Definition items_some (items : value) (i : nat) : completion bool :=
  match items with
  | VUndefined | VNull => Normal false
  | VArr xs => some (item_matches i) xs
  | _ => Throw
  end.

(** The [reduce] of drawOne over an array [arr], from index [i] on. *)
Fixpoint reduce_mask (items : value) (arr : list value) (i : nat) (acc : Z) : completion Z :=
  match arr with
  | [] => Normal acc
  | _ :: rest =>
      let* hit := items_some items i in
      reduce_mask items rest (S i)
        (if hit then bor (Int acc) (Int (shl (Int 1) (index_num i))) else acc)
  end.

(** The mask drawOne works on: [decoded.mask] when it is a number, the
    [reduce] over [decoded.items] (or over the nine placeholders) otherwise. *)
Definition state_mask (decoded : value) : completion num :=
  let* m := get decoded "mask" in
  match m with
  | VNum n => Normal n
  | _ =>
      let* items := get decoded "items" in
      let* arr :=
        if truthy items then
          match items with
          | VArr xs => Normal xs
          | _ => Throw
          end
        else Normal (mapi (fun (_ : string) i => VObj [("id", VNum (index_num i))]) 0%nat DEFAULT_THEMES) in
      let* r := reduce_mask items arr 0%nat 0 in
      Normal (Int r)
  end.

Definition available (mask : num) : list nat :=
  filter (bit_set mask) (seq 0 (List.length DEFAULT_THEMES)).

(** [available[Math.floor(random * available.length)]]; [None] is [undefined]. *)
Definition pick (avail : list nat) (random : Q) : option nat :=
  let k := Qfloor (random * inject_Z (Z.of_nat (List.length avail))) in
  if k <? 0 then None else nth_error avail (Z.to_nat k).

Inductive drawResult : Type :=
| Ignored
| Exhausted
| Picked (idx : option nat) (pickLabel : value) (newState : value) (enc : string).

(** One call of drawOne: [busy] and [decoded] are the component's state,
    [random] is what [Math.random()] returns and [now] what [Date.now()]
    would.  [Ignored] is the return of the first guard, [Exhausted] the
    return on an empty [available]; [Picked] carries what the call shows and
    publishes. *)
Definition drawOne (busy : bool) (decoded : value) (random : Q) (now : Z)
  : completion drawResult :=
  if busy || negb (truthy decoded) then Normal Ignored
  else
    let* mask := state_mask decoded in
    let avail := available mask in
    match avail with
    | [] => Normal Exhausted
    | _ =>
        let idx := pick avail random in
        let idx_num := match idx with Some i => index_num i | None => NaN end in
        let pickLabel := match idx with Some i => theme i | None => VUndefined end in
        let newMask := band mask (Int (bnot (Int (shl (Int 1) idx_num)))) in
        let meta0 := get_opt decoded "meta" in
        let meta := if nullish meta0 then VObj [("createdAt", VNum (Int now))] else meta0 in
        let newState := VObj [("mask", VNum (Int newMask)); ("meta", meta)] in
        Normal (Picked idx pickLabel newState (encodeState newState))
    end.

End Program.

(** ** Definitions used by the statements *)

Definition zrange (n : nat) : list Z := map Z.of_nat (seq 0 n).

(** What stops a [span]: the end of the string, or a character outside the class. *)
Definition stops (p : ascii -> bool) (s : string) : bool :=
  match s with
  | EmptyString => true
  | String c _ => negb (p c)
  end.

(** A digit as [toString(36)] writes it. *)
Definition is_lower36 (c : ascii) : bool := is_digit c || is_lower c.

(** The two fields of a draw state: the mask of what remains, and the
    creation time. *)
Definition remaining (st : value) : value := get_opt st "mask".
Definition createdAt (st : value) : value := get_opt (get_opt st "meta") "createdAt".

(** A creation time that is absent, or an integer number of milliseconds. *)
Definition createdAt_value (c : option Z) : value :=
  match c with
  | Some t => VNum (Int t)
  | None => VUndefined
  end.

(** The object createInitialLink and drawOne hand to encodeState. *)
Definition draw_state (mask : Z) (c : option Z) : value :=
  VObj [("mask", VNum (Int mask)); ("meta", VObj [("createdAt", createdAt_value c)])].

(** The time part of a token, from the [createdAt] of the state. *)
Definition time_of (ToNumber_object : value -> num) (c : value) : string :=
  if truthy c then toString36 (floor_div (ToNumber ToNumber_object c) 1000) else "".

(** [digits] writes [n] in base 36: one or more of [0-9a-z], no sign. *)
Definition base36_of (n : Z) (digits : string) : Prop :=
  digits <> "" /\ forall_chars is_lower36 digits = true /\ digits_value digits 0 = n.

(** The characters the compact grammar is written in. *)
Definition is_token_char (c : ascii) : bool := is_lower36 c || is_dot c.

Definition no_dot (c : ascii) : bool := negb (is_dot c).

Definition is_throw {A} (c : completion A) : bool :=
  match c with
  | Throw => true
  | Normal _ => false
  end.

(** What [atob] is applied to inside base64UrlDecode. *)
Definition atob_input (s : string) : string := pad4 (map_chars url_unsafe s).

(** The check, for one mask, that the token without a time suffix decodes
    to bytes of which the first is a continuation byte [100110xx], and that
    [decodeURIComponent] throws on them. *)
Definition short_token_rejected (mask : Z) : bool :=
  match atob (atob_input ("m" ++ nat36 mask)) with
  | Normal (String b rest) =>
      (Z.land (code b) 252 =? 152) && is_throw (decodeURIComponent (percent_all (String b rest)))
  | _ => false
  end.

(** The compact grammar, as the spec writes it: [m], one or more of
    [0-9a-z], and possibly [.t] and one or more of [0-9a-z]; letters in
    either case.  [compact_token s mask time] gives the two digit strings. *)
Inductive compact_token : string -> string -> option string -> Prop :=
| compact_mask (m : ascii) (digits : string) :
    is_m m = true ->
    forall_chars is_alnum digits = true -> digits <> "" ->
    compact_token (String m digits) digits None
| compact_mask_time (m d t : ascii) (digits time : string) :
    is_m m = true ->
    forall_chars is_alnum digits = true -> digits <> "" ->
    is_dot d = true -> is_t t = true ->
    forall_chars is_alnum time = true -> time <> "" ->
    compact_token (String m (digits ++ String d (String t time))) digits (Some time).

(** The legacy attempt fails: base64UrlDecode returns null or the empty
    string, or [JSON.parse] throws on what it returns. *)
Definition legacy_fails (JSON_parse : string -> completion value) (s : string) : Prop :=
  base64UrlDecode s = None \/
  base64UrlDecode s = Some "" \/
  exists json, base64UrlDecode s = Some json /\ JSON_parse json = Throw.

(** The number of bits set in a 32-bit mask. *)
Definition popcount (z : Z) : nat := List.length (filter (Z.testbit z) (zrange 32)).

(** What one draw on the mask [mask] may do: for every index it can pick,
    the bit is set, the new mask is the old one without that bit, has fewer
    bits, brings no bit back and stays in [0, 2^9 - 1]; and there is an index
    to pick unless the mask is 0. *)
Definition clear_ok (mask : Z) : bool :=
  forallb
    (fun idx =>
       let newMask := band (Int mask) (Int (bnot (Int (shl (Int 1) (index_num idx))))) in
       Z.testbit mask (Z.of_nat idx) && (idx <? 9)%nat &&
       (newMask =? Z.land mask (Z.lnot (Z.shiftl 1 (Z.of_nat idx)))) &&
       (popcount newMask <? popcount mask)%nat &&
       (Z.land newMask mask =? newMask) &&
       (0 <=? newMask) && (newMask <=? 511))
    (available (Int mask))
  && ((mask =? 0) || negb (Nat.eqb (List.length (available (Int mask))) 0))
  && (negb (mask =? 0) || Nat.eqb (List.length (available (Int mask))) 0)
  && forallb (fun i => Bool.eqb (bit_set (Int mask) i) (Z.testbit mask (Z.of_nat i))) (seq 0 9).

(** The index a draw picked, if it picked one. *)
Definition picked_index (r : completion drawResult) : option nat :=
  match r with
  | Normal (Picked idx _ _ _) => idx
  | _ => None
  end.


(** The double quote, for JSON texts. *)
Definition dq : string := String (chr 34) EmptyString.

(** A legacy document that lists Pool[2] and Pool[5], with the ids the first
    version of the program gave its items, and what [JSON.parse] makes of it. *)
Definition legacy_doc_2_5 : string :=
  "{" ++ dq ++ "id" ++ dq ++ ":" ++ dq ++ "s1" ++ dq ++ "," ++ dq ++ "items" ++ dq ++ ":[{"
  ++ dq ++ "id" ++ dq ++ ":" ++ dq ++ "s1-2" ++ dq ++ "," ++ dq ++ "label" ++ dq ++ ":"
  ++ dq ++ "Swimming" ++ dq ++ "},{"
  ++ dq ++ "id" ++ dq ++ ":" ++ dq ++ "s1-5" ++ dq ++ "," ++ dq ++ "label" ++ dq ++ ":"
  ++ dq ++ "Badminton" ++ dq ++ "}]," ++ dq ++ "meta" ++ dq ++ ":{" ++ dq ++ "createdAt" ++ dq
  ++ ":1700000000000}}".

Definition legacy_payload_2_5 : value :=
  VObj [("id", VStr "s1");
        ("items", VArr [VObj [("id", VStr "s1-2"); ("label", VStr "Swimming")];
                        VObj [("id", VStr "s1-5"); ("label", VStr "Badminton")]]);
        ("meta", VObj [("createdAt", VNum (Int 1700000000000))])].

Definition legacy_token_2_5 : string :=
  "eyJpZCI6InMxIiwiaXRlbXMiOlt7ImlkIjoiczEtMiIsImxhYmVsIjoiU3dpbW1pbmcifSx7ImlkIjoiczEtNSIsImxhYmVsIjoiQmFkbWludG9uIn1dLCJtZXRhIjp7ImNyZWF0ZWRBdCI6MTcwMDAwMDAwMDAwMH19".

(** A document with a mask and no [meta], and what [JSON.parse] makes of it. *)
Definition mask_only_doc : string := "{" ++ dq ++ "mask" ++ dq ++ ":1}".
Definition mask_only_token : string := "eyJtYXNrIjoxfQ".

(** ** Definitions used by the further properties *)

(** The characters of [btoa s] but for the padding, and the padding. *)
Fixpoint b64_body (s : string) : string :=
  match s with
  | String a (String b (String c rest)) =>
      let n := code a * 65536 + code b * 256 + code c in
      String (b64_char (n / 262144)) (String (b64_char (n / 4096 mod 64))
        (String (b64_char (n / 64 mod 64)) (String (b64_char (n mod 64)) (b64_body rest))))
  | String a (String b EmptyString) =>
      let n := code a * 1024 + code b * 4 in
      String (b64_char (n / 4096)) (String (b64_char (n / 64 mod 64))
        (String (b64_char (n mod 64)) EmptyString))
  | String a EmptyString =>
      let n := code a * 16 in
      String (b64_char (n / 64)) (String (b64_char (n mod 64)) EmptyString)
  | EmptyString => EmptyString
  end.

Fixpoint b64_padding (s : string) : string :=
  match s with
  | String _ (String _ (String _ rest)) => b64_padding rest
  | String _ (String _ EmptyString) => "="
  | String _ EmptyString => "=="
  | EmptyString => EmptyString
  end.

(** The bytes of a string as escapes. *)
Fixpoint escs (s : string) : list unit_ :=
  match s with
  | EmptyString => []
  | String c rest => Esc (code c) :: escs rest
  end.

(** A text that is well-formed UTF-8: [encodeURIComponent] does not throw
    on it, and [decodeURIComponent] reads its escapes back. *)
Definition well_formed (str : string) : bool :=
  negb (is_throw (decodeURIComponent (percent_all str))).

Definition is_ascii_char (c : ascii) : bool := code c <? 128.

(** The characters of the URL-safe Base64 alphabet. *)
Definition is_url64 (c : ascii) : bool :=
  is_alnum c || (code c =? 45) || (code c =? 95).

(** The unreserved characters of a URL that the program's tokens use:
    letters, digits, [-], [_] and [.]. *)
Definition is_unreserved (c : ascii) : bool := is_url64 c || is_dot c.

(** The entry of the pool at index [i], as the compact branch lists it. *)
Definition pool_item (i : nat) : value :=
  VObj [("id", VStr (String_of_index i)); ("label", theme i)].

Definition is_object (v : value) : bool :=
  match v with
  | VObj _ => true
  | _ => false
  end.

(** The label a draw showed, if it picked. *)
Definition picked_label (r : completion drawResult) : option value :=
  match r with
  | Normal (Picked _ label _ _) => Some label
  | _ => None
  end.

(** The token a draw published, if it picked. *)
Definition published (r : completion drawResult) : option string :=
  match r with
  | Normal (Picked _ _ _ enc) => Some enc
  | _ => None
  end.

(** What clearing a bit does to [available], for one mask: the index goes
    and the others stay, in order. *)
Definition clear_removes (mask : Z) : bool :=
  forallb
    (fun idx =>
       let newMask := band (Int mask) (Int (bnot (Int (shl (Int 1) (index_num idx))))) in
       if list_eq_dec Nat.eq_dec (available (Int newMask))
            (filter (fun i => negb (Nat.eqb i idx)) (available (Int mask)))
       then true else false)
    (available (Int mask)).

Section Flow.

Variable JSON_parse : string -> completion value.
Variable JSON_stringify : value -> completion string.
Variable ToNumber_object : value -> num.

(** What the click on "Create link" does with the encoded state: the alert
    on an empty one, the push of the new [?state=] otherwise. *)
Inductive linkResult : Type :=
| AlertFailed
| Pushed (state : string).

Definition createInitialLink_click (now : Z) : linkResult :=
  let enc := createInitialLink JSON_stringify ToNumber_object now in
  if negb (truthy (VStr enc)) then AlertFailed else Pushed enc.

(** A chain of participants: each one opens the page on the [?state=] the
    one before published, the component decodes it, and a click on "Draw"
    with the given [Math.random()] and [Date.now()] publishes the next.  The
    results of the draws, in order, and the state parameter the chain ends
    on; the chain stops at the first draw that does not pick. *)
Fixpoint draw_chain (state : string) (draws : list (Q * Z))
  : list (completion drawResult) * string :=
  match draws with
  | [] => ([], state)
  | (random, now) :: rest =>
      let result :=
        drawOne JSON_stringify ToNumber_object false (decodeState JSON_parse state) random now in
      match result with
      | Normal (Picked _ _ _ enc) =>
          let (results, last) := draw_chain enc rest in (result :: results, last)
      | _ => ([result], state)
      end
  end.

End Flow.

(** Stand-ins for [JSON.parse] and [JSON.stringify] that are right on the
    legacy document of the examples and its payload. *)
Definition parse_2_5 (s : string) : completion value :=
  if String.eqb s legacy_doc_2_5 then Normal legacy_payload_2_5 else Throw.

Definition stringify_2_5 (v : value) : completion string := Normal legacy_doc_2_5.

(** The state parameter [state] decodes to the compact state of the mask
    [mask], with a creation time [c] that is absent or not negative. *)
Definition decodes_to (JSON_parse : string -> completion value)
  (state : string) (mask : Z) (c : option Z) : Prop :=
  (forall t, c = Some t -> 0 <= t) /\
  decodeState JSON_parse state =
    VObj [("mask", VNum (Int mask));
          ("items", VArr (compact_items (Int mask)));
          ("meta", VObj [("createdAt", createdAt_value c)])].

(** The creation time after one more trip through a token. *)
Definition seconds_only (c : option Z) : option Z :=
  match c with
  | Some t => if t =? 0 then None else Some (t / 1000 * 1000)
  | None => None
  end.

Definition in_unit_interval (r : Q) : Prop := (0 <= r)%Q /\ (r < 1)%Q.

(** The second a token carries: none for a creation time that is absent
    or 0. *)
Definition token_second (c : option Z) : option Z :=
  match c with
  | Some t => if t =? 0 then None else Some (t / 1000)
  | None => None
  end.

Definition starts_with_m (s : string) : bool :=
  match s with
  | String c _ => code c =? 109
  | EmptyString => false
  end.

(** * Properties *)

(** ** The platform functions on a few inputs *)

Example toString36_511 : toString36 (Int 511) = "e7".
Proof. reflexivity. Qed.

Example parseInt36_e7 : parseInt36 "e7" = Int 511.
Proof. reflexivity. Qed.

Example parseInt36_bang : parseInt36 "!!" = NaN.
Proof. reflexivity. Qed.

Example atob_me7 : atob "me7=" = Normal (String (chr 153) (String (chr 238) EmptyString)).
Proof. reflexivity. Qed.

Example base64UrlDecode_me7 : base64UrlDecode "me7" = None.
Proof. reflexivity. Qed.

Example base64UrlDecode_hello : base64UrlDecode "aGVsbG8" = Some "hello".
Proof. reflexivity. Qed.

Example base64UrlEncode_hello : base64UrlEncode "hello" = "aGVsbG8".
Proof. reflexivity. Qed.

Example base64UrlDecode_unknown : base64UrlDecode "not-a-valid-token!!" = None.
Proof. reflexivity. Qed.

Example base64UrlDecode_legacy_2_5 : base64UrlDecode legacy_token_2_5 = Some legacy_doc_2_5.
Proof. vm_compute. reflexivity. Qed.

Example base64UrlEncode_legacy_2_5 : base64UrlEncode legacy_doc_2_5 = legacy_token_2_5.
Proof. vm_compute. reflexivity. Qed.

Example base64UrlDecode_mask_only : base64UrlDecode mask_only_token = Some mask_only_doc.
Proof. vm_compute. reflexivity. Qed.

Example base64UrlDecode_123 : base64UrlDecode "MTIz" = Some "123".
Proof. vm_compute. reflexivity. Qed.

Example match_compact_MTIz : match_compact "MTIz" = Some ("TIz", None).
Proof. reflexivity. Qed.
(** ** Enumeration of a finite range *)

Lemma zrange_In (n : nat) (z : Z) : 0 <= z < Z.of_nat n -> In z (zrange n).
Proof.
  intros H. unfold zrange. apply in_map_iff. exists (Z.to_nat z). split.
  - lia.
  - apply in_seq. lia.
Qed.

Lemma forallb_zrange (p : Z -> bool) (n : nat) :
  forallb p (zrange n) = true -> forall z, 0 <= z < Z.of_nat n -> p z = true.
Proof.
  intros H z Hz. rewrite forallb_forall in H. apply H, zrange_In, Hz.
Qed.

(** A property of characters that a computation decides holds of all 256. *)
Ltac all_chars c := destruct c as [[] [] [] [] [] [] [] []]; vm_compute; try reflexivity; try discriminate; auto.

(** ** Strings *)

Lemma append_empty_r (s : string) : s ++ "" = s.
Proof. induction s as [|c s IH]; simpl; [reflexivity | now rewrite IH]. Qed.

Lemma append_assoc (a b c : string) : (a ++ b) ++ c = a ++ (b ++ c).
Proof. induction a as [|x a IH]; simpl; [reflexivity | now rewrite IH]. Qed.

Lemma eqb_empty (s : string) : String.eqb s "" = true <-> s = "".
Proof. destruct s; simpl; split; intros H; try reflexivity; discriminate. Qed.

Lemma forall_chars_app (p : ascii -> bool) (a b : string) :
  forall_chars p (a ++ b) = forall_chars p a && forall_chars p b.
Proof.
  induction a as [|c a IH]; simpl; [reflexivity|].
  rewrite IH. now rewrite andb_assoc.
Qed.

Lemma forall_chars_impl (p q : ascii -> bool) (s : string) :
  (forall c, p c = true -> q c = true) ->
  forall_chars p s = true -> forall_chars q s = true.
Proof.
  intros Hpq. induction s as [|c s IH]; simpl; [reflexivity|].
  intros H. apply andb_true_iff in H as [Hc Hs].
  now rewrite (Hpq _ Hc), IH.
Qed.

Lemma span_app (p : ascii -> bool) (a b : string) :
  forall_chars p a = true -> stops p b = true -> span p (a ++ b) = (a, b).
Proof.
  intros Ha Hb. induction a as [|c a IH]; simpl in *.
  - destruct b as [|c b]; simpl in *; [reflexivity|].
    apply negb_true_iff in Hb. now rewrite Hb.
  - apply andb_true_iff in Ha as [Hc Ha]. rewrite Hc, (IH Ha). reflexivity.
Qed.

Lemma span_spec (p : ascii -> bool) (s a b : string) :
  span p s = (a, b) -> s = a ++ b /\ forall_chars p a = true /\ stops p b = true.
Proof.
  revert a b. induction s as [|c s IH]; simpl; intros a b H.
  - inversion H. repeat split.
  - destruct (p c) eqn:Hc.
    + destruct (span p s) as [a' b'] eqn:Hs. inversion H; subst.
      destruct (IH _ _ eq_refl) as (-> & Ha & Hb).
      simpl. rewrite Hc. repeat split; assumption.
    + inversion H; subst. simpl. rewrite Hc. repeat split.
Qed.

(** ** Radix 36 *)

Lemma lower36_alnum (c : ascii) : is_lower36 c = true -> is_alnum c = true.
Proof. all_chars c. Qed.

Lemma alnum_digit36 (c : ascii) : is_digit36 c = is_alnum c.
Proof. all_chars c. Qed.

Lemma alnum_not_whitespace (c : ascii) : is_alnum c = true -> is_str_whitespace c = false.
Proof. all_chars c. Qed.

Lemma digit36_value (d : Z) :
  0 <= d < 36 -> digit_value (digit36 d) = Some d /\ is_lower36 (digit36 d) = true.
Proof.
  intros H.
  assert (A : forallb (fun d => match digit_value (digit36 d) with
                                | Some d' => (d' =? d) && is_lower36 (digit36 d)
                                | None => false
                                end) (zrange 36) = true) by (vm_compute; reflexivity).
  pose proof (forallb_zrange _ _ A d H) as B. cbv beta in B.
  destruct (digit_value (digit36 d)) as [d'|]; [|discriminate].
  apply andb_true_iff in B as [B1 B2]. apply Z.eqb_eq in B1. now subst.
Qed.

Lemma digits_value_app (a b : string) (acc : Z) :
  digits_value (a ++ b) acc = digits_value b (digits_value a acc).
Proof. revert acc. induction a as [|c a IH]; simpl; intros acc; [reflexivity | apply IH]. Qed.

Lemma digits_value_nonneg (s : string) (acc : Z) :
  forall_chars is_alnum s = true -> 0 <= acc -> 0 <= digits_value s acc.
Proof.
  revert acc. induction s as [|c s IH]; simpl; intros acc H Hacc; [assumption|].
  apply andb_true_iff in H as [Hc Hs]. apply IH; [assumption|].
  assert (0 <= match digit_value c with Some d => d | None => 0 end); [|lia].
  clear - Hc. revert Hc. all_chars c.
Qed.

Lemma digits36_spec (fuel : nat) (n : Z) :
  0 <= n < 36 ^ (Z.of_nat fuel + 1) ->
  digits_value (digits36 fuel n) 0 = n /\
  forall_chars is_lower36 (digits36 fuel n) = true /\
  digits36 fuel n <> "".
Proof.
  revert n. induction fuel as [|fuel IH]; intros n Hn.
  - change (36 ^ (Z.of_nat 0 + 1)) with 36 in Hn. simpl.
    rewrite Z.mod_small by lia.
    destruct (digit36_value n Hn) as [Hd Hl]. rewrite Hd, Hl.
    split; [lia | split; [reflexivity | discriminate]].
  - simpl digits36. destruct (n <? 36) eqn:Hlt.
    + apply Z.ltb_lt in Hlt. simpl.
      destruct (digit36_value n) as [Hd Hl]; [lia|]. rewrite Hd, Hl.
      split; [lia | split; [reflexivity | discriminate]].
    + apply Z.ltb_ge in Hlt.
      assert (Hq : 0 <= n / 36 < 36 ^ (Z.of_nat fuel + 1)).
      { split; [apply Z.div_pos; lia|].
        apply Z.div_lt_upper_bound; [lia|].
        replace (Z.of_nat (S fuel) + 1) with (1 + (Z.of_nat fuel + 1)) in Hn by lia.
        rewrite Z.pow_add_r in Hn by lia. lia. }
      destruct (IH _ Hq) as (Hv & Hc & Hne).
      assert (Hm : 0 <= n mod 36 < 36) by (apply Z.mod_pos_bound; lia).
      destruct (digit36_value _ Hm) as [Hd Hl].
      rewrite digits_value_app, Hv. simpl. rewrite Hd.
      rewrite forall_chars_app, Hc. simpl. rewrite Hl.
      split; [|split; [reflexivity|]].
      * pose proof (Z.div_mod n 36). lia.
      * destruct (digits36 fuel (n / 36)); [congruence | discriminate].
Qed.

Lemma nat36_spec (n : Z) :
  0 <= n ->
  digits_value (nat36 n) 0 = n /\
  forall_chars is_lower36 (nat36 n) = true /\
  nat36 n <> "".
Proof.
  intros Hn. unfold nat36. apply digits36_spec.
  split; [assumption|].
  rewrite Z2Nat.id by apply Z.log2_nonneg.
  destruct (Z.eq_dec n 0) as [->|Hnz]; [reflexivity|].
  assert (H2 : n < 2 ^ (Z.log2 n + 1)).
  { pose proof (Z.log2_spec n). replace (Z.log2 n + 1) with (Z.succ (Z.log2 n)) by lia. lia. }
  assert (H36 : 2 ^ (Z.log2 n + 1) <= 36 ^ (Z.log2 n + 1)).
  { apply Z.pow_le_mono_l. lia. }
  lia.
Qed.

Lemma split_sign_alnum (c : ascii) (s : string) :
  is_alnum c = true -> split_sign (String c s) = (1, String c s).
Proof. all_chars c. Qed.

(** [parseInt] reads back a string of one or more digits as its value. *)
Lemma parseInt36_digits (s : string) :
  forall_chars is_alnum s = true -> s <> "" ->
  parseInt36 s = Int (digits_value s 0).
Proof.
  intros Hs Hne. unfold parseInt36.
  destruct s as [|c s]; [congruence|].
  pose proof Hs as Hall.
  simpl in Hs. apply andb_true_iff in Hs as [Hc Hs].
  simpl trim_start. rewrite (alnum_not_whitespace _ Hc).
  rewrite (split_sign_alnum _ _ Hc).
  assert (Hspan : span is_digit36 (String c s) = (String c s, "")).
  { rewrite <- (append_empty_r (String c s)) at 1. apply span_app; [|reflexivity].
    apply (forall_chars_impl is_alnum); [|assumption].
    intros x Hx. now rewrite alnum_digit36. }
  rewrite Hspan. f_equal. lia.
Qed.

Lemma parseInt36_nat36 (n : Z) : 0 <= n -> parseInt36 (nat36 n) = Int n.
Proof.
  intros Hn. destruct (nat36_spec n Hn) as (Hv & Hc & Hne).
  rewrite parseInt36_digits, Hv; [reflexivity | | assumption].
  apply (forall_chars_impl is_lower36); [apply lower36_alnum | assumption].
Qed.

(** ** The legacy attempt on compact tokens *)

Lemma no_dot_url_unsafe (c : ascii) : no_dot (url_unsafe c) = no_dot c.
Proof. all_chars c. Qed.

Lemma no_dot_whitespace (c : ascii) : is_ascii_whitespace c = true -> no_dot c = true.
Proof. all_chars c. Qed.

Lemma no_dot_eq (c : ascii) : (code c =? 61) = true -> no_dot c = true.
Proof. all_chars c. Qed.

Lemma no_dot_b64 (c : ascii) : is_b64 c = true -> no_dot c = true.
Proof. all_chars c. Qed.

Lemma no_dot_map (s : string) :
  forall_chars no_dot (map_chars url_unsafe s) = forall_chars no_dot s.
Proof.
  induction s as [|c s IH]; simpl; [reflexivity|].
  now rewrite no_dot_url_unsafe, IH.
Qed.

Lemma no_dot_pad4 (s : string) : forall_chars no_dot (pad4 s) = forall_chars no_dot s.
Proof.
  unfold pad4. cbv zeta.
  repeat match goal with |- context [if ?b then _ else _] => destruct b end;
    rewrite ?forall_chars_app; simpl; rewrite ?andb_true_r; reflexivity.
Qed.

Lemma no_dot_filter (s : string) :
  forall_chars no_dot (filter_chars (fun c => negb (is_ascii_whitespace c)) s)
  = forall_chars no_dot s.
Proof.
  induction s as [|c s IH]; simpl; [reflexivity|].
  destruct (is_ascii_whitespace c) eqn:Hw; simpl.
  - now rewrite (no_dot_whitespace _ Hw), IH.
  - now rewrite IH.
Qed.

Lemma no_dot_drop_last (s : string) :
  ends_with_eq s = true -> forall_chars no_dot (drop_last s) = forall_chars no_dot s.
Proof.
  induction s as [|c s IH]; [discriminate|].
  destruct s as [|c' s].
  - simpl. intros H. now rewrite (no_dot_eq _ H).
  - intros H. change (ends_with_eq (String c' s) = true) in H.
    change (drop_last (String c (String c' s))) with (String c (drop_last (String c' s))).
    change (forall_chars no_dot (String c (drop_last (String c' s))))
      with (no_dot c && forall_chars no_dot (drop_last (String c' s))).
    rewrite (IH H). reflexivity.
Qed.

Lemma no_dot_strip_padding (s : string) :
  forall_chars no_dot (strip_padding s) = forall_chars no_dot s.
Proof.
  unfold strip_padding.
  destruct ((len s mod 4 =? 0) && ends_with_eq s) eqn:H1; [|reflexivity].
  apply andb_true_iff in H1 as [_ H1].
  destruct (ends_with_eq (drop_last s)) eqn:H2.
  - now rewrite (no_dot_drop_last _ H2), (no_dot_drop_last _ H1).
  - now rewrite (no_dot_drop_last _ H1).
Qed.

(** [atob] rejects every string with a dot in it. *)
Lemma atob_dot (s : string) :
  forall_chars no_dot s = false -> atob (atob_input s) = Throw.
Proof.
  intros H. unfold atob, atob_input. cbv zeta.
  set (d2 := strip_padding _).
  assert (Hd : forall_chars no_dot d2 = false).
  { unfold d2. now rewrite no_dot_strip_padding, no_dot_filter, no_dot_pad4, no_dot_map. }
  destruct (len d2 mod 4 =? 1); [reflexivity|].
  destruct (forall_chars is_b64 d2) eqn:Hb; [|reflexivity].
  rewrite (forall_chars_impl _ _ _ no_dot_b64 Hb) in Hd. discriminate.
Qed.

Lemma base64UrlDecode_dot (s : string) :
  forall_chars no_dot s = false -> base64UrlDecode s = None.
Proof.
  intros H. unfold base64UrlDecode.
  destruct (String.eqb s ""); [reflexivity|].
  fold (atob_input s). now rewrite (atob_dot _ H).
Qed.

Lemma short_tokens_rejected : forallb short_token_rejected (zrange 512) = true.
Proof. vm_compute. reflexivity. Qed.

Lemma base64UrlDecode_short (mask : Z) :
  0 <= mask <= 511 -> base64UrlDecode ("m" ++ nat36 mask) = None.
Proof.
  intros H.
  assert (R : short_token_rejected mask = true).
  { apply (forallb_zrange _ 512 short_tokens_rejected). simpl. lia. }
  unfold short_token_rejected in R. unfold base64UrlDecode.
  change (String.eqb ("m" ++ nat36 mask) "") with false. cbv iota.
  fold (atob_input ("m" ++ nat36 mask)).
  destruct (atob (atob_input ("m" ++ nat36 mask))) as [[|b rest]|]; try discriminate.
  apply andb_true_iff in R as [_ R]. unfold bind.
  destruct (decodeURIComponent (percent_all (String b rest))); [discriminate | reflexivity].
Qed.

(** ** The form of an encoded state *)

Lemma lower36_token_char (c : ascii) : is_lower36 c = true -> is_token_char c = true.
Proof. all_chars c. Qed.

Lemma lower36_no_dot (c : ascii) : is_lower36 c = true -> no_dot c = true.
Proof. all_chars c. Qed.

Lemma nat36_no_dot (n : Z) : 0 <= n -> forall_chars no_dot (nat36 n) = true.
Proof.
  intros H. destruct (nat36_spec n H) as (_ & Hc & _).
  apply (forall_chars_impl is_lower36); [apply lower36_no_dot | assumption].
Qed.

Lemma toString36_nonneg (n : Z) : 0 <= n -> toString36 (Int n) = nat36 n.
Proof.
  intros H. unfold toString36. destruct (n <? 0) eqn:E; [|reflexivity].
  apply Z.ltb_lt in E. lia.
Qed.

Lemma toString36_nonempty (n : num) : toString36 n <> "".
Proof.
  destruct n as [|z]; simpl; [discriminate|].
  destruct (z <? 0) eqn:E; [discriminate|].
  apply Z.ltb_ge in E. apply (nat36_spec z E).
Qed.

Lemma base36_of_nat36 (n : Z) : 0 <= n -> base36_of n (nat36 n).
Proof.
  intros H. destruct (nat36_spec n H) as (Hv & Hc & Hne). now repeat split.
Qed.

Lemma base36_of_alnum (n : Z) (digits : string) :
  base36_of n digits -> forall_chars is_alnum digits = true.
Proof.
  intros (_ & H & _). apply (forall_chars_impl is_lower36); [apply lower36_alnum | assumption].
Qed.

Lemma base36_of_parse (n : Z) (digits : string) :
  base36_of n digits -> parseInt36 digits = Int n.
Proof.
  intros H. pose proof (base36_of_alnum _ _ H) as Ha. destruct H as (Hne & _ & Hv).
  now rewrite parseInt36_digits, Hv.
Qed.

Section Encode.

Variable JSON_stringify : value -> completion string.
Variable ToNumber_object : value -> num.

Lemma encodeState_mask (obj : value) (mask : num) :
  remaining obj = VNum mask ->
  encodeState JSON_stringify ToNumber_object obj =
    "m" ++ toString36 mask ++
      (if truthy (VStr (time_of ToNumber_object (createdAt obj)))
       then ".t" ++ time_of ToNumber_object (createdAt obj) else "").
Proof.
  unfold remaining, createdAt, encodeState, time_of. intros ->. reflexivity.
Qed.

Lemma time_of_createdAt (c : option Z) :
  (forall t, c = Some t -> 0 <= t) ->
  time_of ToNumber_object (createdAt_value c) =
    match c with
    | Some t => if t =? 0 then "" else nat36 (t / 1000)
    | None => ""
    end.
Proof.
  intros H. destruct c as [t|]; [|reflexivity].
  unfold time_of. simpl. destruct (t =? 0); simpl; [reflexivity|].
  destruct (t / 1000 <? 0) eqn:E; [|reflexivity].
  apply Z.ltb_lt in E. pose proof (H t eq_refl).
  pose proof (Z.div_pos t 1000). lia.
Qed.

(** The token of a state with a mask in range: the mask alone when the
    creation time is absent or 0, the mask and the seconds otherwise. *)
Lemma encodeState_draw_state (obj : value) (mask : Z) (c : option Z) :
  remaining obj = VNum (Int mask) -> 0 <= mask ->
  createdAt obj = createdAt_value c -> (forall t, c = Some t -> 0 <= t) ->
  encodeState JSON_stringify ToNumber_object obj =
    "m" ++ nat36 mask ++
      match c with
      | Some t => if t =? 0 then "" else ".t" ++ nat36 (t / 1000)
      | None => ""
      end.
Proof.
  intros Hm Hmask Hc Ht.
  rewrite (encodeState_mask _ _ Hm), Hc, (time_of_createdAt _ Ht), toString36_nonneg by assumption.
  destruct c as [t|]; [|reflexivity].
  destruct (t =? 0); [reflexivity|].
  assert (Hq : 0 <= t / 1000) by (apply Z.div_pos; [apply Ht; reflexivity | lia]).
  destruct (nat36_spec _ Hq) as (_ & _ & Hne).
  destruct (nat36 (t / 1000)); [congruence | reflexivity].
Qed.

End Encode.

(** ** The compact pattern on encoded tokens *)

Lemma match_compact_mask (digits : string) :
  forall_chars is_alnum digits = true -> digits <> "" ->
  match_compact ("m" ++ digits) = Some (digits, None).
Proof.
  intros Ha Hne. simpl. change (is_m "m") with true. cbv iota.
  rewrite <- (append_empty_r digits) at 1.
  rewrite (span_app _ _ "" Ha eq_refl).
  destruct digits; [congruence | reflexivity].
Qed.

Lemma match_compact_time (digits time : string) :
  forall_chars is_alnum digits = true -> digits <> "" ->
  forall_chars is_alnum time = true -> time <> "" ->
  match_compact ("m" ++ digits ++ ".t" ++ time) = Some (digits, Some time).
Proof.
  intros Ha Hne Hb Hnt. simpl. change (is_m "m") with true. cbv iota.
  rewrite (span_app _ digits (String "." (String "t" time)) Ha eq_refl).
  destruct digits as [|d ds]; [congruence|].
  change (String.eqb (String d ds) "") with false. cbv iota.
  change (is_dot "." && is_t "t") with true. cbv iota.
  rewrite <- (append_empty_r time) at 1.
  rewrite (span_app _ _ "" Hb eq_refl).
  destruct time; [congruence | reflexivity].
Qed.

Lemma or_zero_int (n : Z) : or_zero (Int n) = Int n.
Proof.
  unfold or_zero. simpl. destruct (n =? 0) eqn:E; [|reflexivity].
  apply Z.eqb_eq in E. now subst.
Qed.

Lemma dot_not_alnum (c : ascii) : is_dot c = true -> is_alnum c = false.
Proof. all_chars c. Qed.

(** The pattern as the program matches it and the grammar as the spec
    writes it accept the same strings, with the same groups. *)
Lemma match_compact_iff (s m1 : string) (m2 : option string) :
  match_compact s = Some (m1, m2) <-> compact_token s m1 m2.
Proof.
  split.
  - destruct s as [|c0 rest]; [discriminate|]. simpl.
    destruct (is_m c0) eqn:Hm; [|discriminate].
    destruct (span is_alnum rest) as [g1 r1] eqn:S1.
    apply span_spec in S1 as (-> & H1 & _).
    destruct (String.eqb g1 "") eqn:E1; [discriminate|].
    assert (N1 : g1 <> "") by (intros ->; discriminate).
    destruct r1 as [|d [|t r2]]; try discriminate.
    + intros H. inversion H; subst. rewrite append_empty_r. now constructor.
    + destruct (is_dot d && is_t t) eqn:Hdt; [|discriminate].
      apply andb_true_iff in Hdt as [Hd Ht].
      destruct (span is_alnum r2) as [g2 r3] eqn:S2.
      apply span_spec in S2 as (-> & H2 & _).
      destruct (negb (String.eqb g2 "") && String.eqb r3 "") eqn:E2; [|discriminate].
      apply andb_true_iff in E2 as [E2 E3]. apply eqb_empty in E3. subst r3.
      assert (N2 : g2 <> "") by (intros ->; discriminate).
      intros H. inversion H; subst. rewrite append_empty_r. now constructor.
  - intros H. destruct H as [m digits Hm Ha Hne | m d t digits time Hm Ha Hne Hd Ht Hb Hnt].
    + simpl. rewrite Hm. rewrite <- (append_empty_r digits) at 1.
      rewrite (span_app _ _ "" Ha eq_refl).
      destruct digits; [congruence | reflexivity].
    + simpl. rewrite Hm.
      rewrite (span_app _ digits (String d (String t time)) Ha)
        by (simpl; now rewrite (dot_not_alnum _ Hd)).
      destruct digits as [|x xs]; [congruence|].
      change (String.eqb (String x xs) "") with false. cbv iota.
      rewrite Hd, Ht. simpl andb. cbv iota.
      rewrite <- (append_empty_r time) at 1.
      rewrite (span_app _ _ "" Hb eq_refl).
      destruct time; [congruence | reflexivity].
Qed.

Lemma base64UrlDecode_null (s : string) :
  base64UrlDecode s = None <->
  s = "" \/ atob (atob_input s) = Throw \/
  exists bytes, atob (atob_input s) = Normal bytes /\
                decodeURIComponent (percent_all bytes) = Throw.
Proof.
  unfold base64UrlDecode. fold (atob_input s).
  destruct (String.eqb s "") eqn:E.
  - apply eqb_empty in E. split; [now left | reflexivity].
  - assert (N : s <> "") by (intros ->; discriminate).
    destruct (atob (atob_input s)) as [bytes|]; unfold bind.
    + destruct (decodeURIComponent (percent_all bytes)) eqn:D; split.
      * discriminate.
      * intros [H | [H | (b & Hb & Hd)]]; [contradiction | discriminate |].
        inversion Hb; subst. congruence.
      * intros _. right. right. now exists bytes.
      * reflexivity.
    + split; [intros _; right; now left | reflexivity].
Qed.

Section Decode.

Variable JSON_parse : string -> completion value.

(** The legacy attempt succeeded: its result is the answer. *)
Lemma decodeState_legacy (s json : string) (v : value) :
  base64UrlDecode s = Some json -> json <> "" -> JSON_parse json = Normal v ->
  decodeState JSON_parse s = v.
Proof.
  intros Hb Hne Hj. unfold decodeState, legacy_json.
  destruct s as [|c s']; [discriminate|].
  change (negb (truthy (VStr (String c s')))) with false. cbv iota.
  rewrite Hb. destruct json as [|a json]; [congruence|].
  change (truthy (VStr (String a json))) with true. cbv iota. now rewrite Hj.
Qed.

(** The legacy attempt failed: the compact branch answers. *)
Lemma decodeState_fallback (s : string) :
  legacy_fails JSON_parse s ->
  decodeState JSON_parse s = match compact_state s with Some v => v | None => VNull end.
Proof.
  intros H. unfold decodeState, legacy_json.
  destruct s as [|c s']; [reflexivity|].
  change (negb (truthy (VStr (String c s')))) with false. cbv iota.
  destruct H as [H | [H | (json & H & Hj)]]; rewrite H; try reflexivity.
  destruct (truthy (VStr json)); [now rewrite Hj | reflexivity].
Qed.

Lemma decodeState_compact (s m1 : string) (m2 : option string) :
  legacy_fails JSON_parse s -> compact_token s m1 m2 ->
  decodeState JSON_parse s = compact_value m1 m2.
Proof.
  intros H Hc. rewrite (decodeState_fallback _ H). unfold compact_state.
  apply match_compact_iff in Hc. now rewrite Hc.
Qed.

Lemma decodeState_unknown (s : string) :
  legacy_fails JSON_parse s -> (forall m1 m2, ~ compact_token s m1 m2) ->
  decodeState JSON_parse s = VNull.
Proof.
  intros H Hn. rewrite (decodeState_fallback _ H). unfold compact_state.
  destruct (match_compact s) as [[m1 m2]|] eqn:Hm; [|reflexivity].
  apply match_compact_iff in Hm. now destruct (Hn _ _ Hm).
Qed.

(** One of the two cases always applies. *)
Lemma legacy_decided (s : string) :
  (exists json v, base64UrlDecode s = Some json /\ json <> "" /\ JSON_parse json = Normal v)
  \/ legacy_fails JSON_parse s.
Proof.
  unfold legacy_fails. destruct (base64UrlDecode s) as [json|]; [|right; now left].
  destruct json as [|a json]; [right; right; now left|].
  destruct (JSON_parse (String a json)) as [v|] eqn:Hj.
  - left. exists (String a json), v. repeat split; [discriminate | assumption].
  - right. right. right. now exists (String a json).
Qed.

End Decode.

(** ** The codec: encode, decode and their round trip *)

(** C9, as the code has it.  For a state whose mask is in [0, 2^9 - 1] and
    whose creation time is absent or a non-negative number of milliseconds,
    encodeState returns [m], then the mask in base 36 without a sign, then,
    exactly when the creation time is present and not 0, [.t] and
    floor(createdAt / 1000) in base 36; every character of the result is a
    lower-case base-36 digit or a dot. *)
Theorem encodeState_form
  (JSON_stringify : value -> completion string) (ToNumber_object : value -> num)
  (obj : value) (mask : Z) (c : option Z) :
  remaining obj = VNum (Int mask) -> 0 <= mask <= 511 ->
  createdAt obj = createdAt_value c -> (forall t, c = Some t -> 0 <= t) ->
  let token := encodeState JSON_stringify ToNumber_object obj in
  forall_chars is_token_char token = true /\
  exists digits, base36_of mask digits /\
    match c with
    | None => token = "m" ++ digits
    | Some t =>
        if t =? 0 then token = "m" ++ digits
        else exists time, base36_of (t / 1000) time /\ token = "m" ++ digits ++ ".t" ++ time
    end.
Proof.
  intros Hm Hmask Hc Ht token.
  assert (E := encodeState_draw_state JSON_stringify ToNumber_object obj mask c
                 Hm (proj1 Hmask) Hc Ht).
  fold token in E.
  pose proof (base36_of_nat36 mask (proj1 Hmask)) as Bm.
  assert (Cm : forall_chars is_token_char (nat36 mask) = true).
  { destruct Bm as (_ & H & _).
    apply (forall_chars_impl is_lower36); [apply lower36_token_char | assumption]. }
  destruct c as [t|].
  - destruct (t =? 0) eqn:Et.
    + rewrite append_empty_r in E. split.
      * rewrite E. simpl. now rewrite Cm.
      * exists (nat36 mask). split; assumption.
    + assert (Hq : 0 <= t / 1000) by (apply Z.div_pos; [apply Ht; reflexivity | lia]).
      pose proof (base36_of_nat36 _ Hq) as Bt.
      assert (Ct : forall_chars is_token_char (nat36 (t / 1000)) = true).
      { destruct Bt as (_ & H & _).
        apply (forall_chars_impl is_lower36); [apply lower36_token_char | assumption]. }
      split.
      * rewrite E. simpl. rewrite forall_chars_app, Cm. simpl. now rewrite Ct.
      * exists (nat36 mask). split; [assumption|].
        exists (nat36 (t / 1000)). split; assumption.
  - rewrite append_empty_r in E. split.
    + rewrite E. simpl. now rewrite Cm.
    + exists (nat36 mask). split; assumption.
Qed.

(** The form of the token of the full pool with a creation time. *)
Lemma encodeState_form_witness :
  0 <= 511 <= 511 /\
  (forall js tn,
     let token := encodeState js tn (draw_state 511 (Some 1730000000123)) in
     forall_chars is_token_char token = true /\
     exists digits, base36_of 511 digits /\
       exists time, base36_of (1730000000123 / 1000) time /\
                    token = "m" ++ digits ++ ".t" ++ time).
Proof.
  split; [lia|]. intros js tn.
  apply (encodeState_form js tn (draw_state 511 (Some 1730000000123)) 511
           (Some 1730000000123)).
  - reflexivity.
  - lia.
  - reflexivity.
  - intros t H. inversion H. lia.
Defined.

(** C9, as the spec states it, fails on a state created at time 0: the
    creation time is there, and the token carries no [.t] part.  It fails
    also on a time before 1970, where the token has a sign in it. *)
Lemma encodeState_createdAt_zero :
  createdAt (draw_state 5 (Some 0)) = VNum (Int 0) /\
  (forall js tn, encodeState js tn (draw_state 5 (Some 0)) = "m5") /\
  "m5" <> "m5" ++ ".t" ++ toString36 (floor_div (Int 0) 1000) /\
  (forall js tn, encodeState js tn (draw_state 5 (Some (-1))) = "m5.t-1") /\
  forall_chars is_token_char "m5.t-1" = false.
Proof.
  split; [reflexivity|]. split; [reflexivity|].
  split; [vm_compute; discriminate|]. split; reflexivity.
Qed.

(** The legacy attempt on an encoded token: [atob] throws on the dot of a
    time part, and without one the 512 tokens are checked one by one. *)
Lemma base64UrlDecode_encoded
  (JSON_stringify : value -> completion string) (ToNumber_object : value -> num)
  (obj : value) (mask : Z) :
  remaining obj = VNum (Int mask) -> 0 <= mask <= 511 ->
  base64UrlDecode (encodeState JSON_stringify ToNumber_object obj) = None.
Proof.
  intros Hm Hmask.
  rewrite (encodeState_mask JSON_stringify ToNumber_object obj (Int mask) Hm).
  rewrite toString36_nonneg by lia.
  destruct (truthy (VStr (time_of ToNumber_object (createdAt obj)))).
  - apply base64UrlDecode_dot. simpl.
    rewrite forall_chars_app, (nat36_no_dot mask (proj1 Hmask)). reflexivity.
  - rewrite append_empty_r. apply base64UrlDecode_short, Hmask.
Qed.

(** What decodeState returns on the token of a state. *)
Lemma decodeState_encodeState
  (JSON_parse : string -> completion value)
  (JSON_stringify : value -> completion string) (ToNumber_object : value -> num)
  (obj : value) (mask : Z) (c : option Z) :
  remaining obj = VNum (Int mask) -> 0 <= mask <= 511 ->
  createdAt obj = createdAt_value c -> (forall t, c = Some t -> 0 <= t) ->
  decodeState JSON_parse (encodeState JSON_stringify ToNumber_object obj) =
    VObj [("mask", VNum (Int mask));
          ("items", VArr (compact_items (Int mask)));
          ("meta", VObj [("createdAt",
                          match c with
                          | None => VUndefined
                          | Some t => if t =? 0 then VUndefined
                                      else VNum (Int (t / 1000 * 1000))
                          end)])].
Proof.
  intros Hm Hmask Hc Ht.
  pose proof (base64UrlDecode_encoded JSON_stringify ToNumber_object obj mask Hm Hmask) as Hn.
  rewrite (decodeState_fallback JSON_parse _ (or_introl Hn)).
  rewrite (encodeState_draw_state JSON_stringify ToNumber_object obj mask c
             Hm (proj1 Hmask) Hc Ht).
  pose proof (base36_of_nat36 mask (proj1 Hmask)) as Bm.
  pose proof (base36_of_alnum _ _ Bm) as Am.
  assert (Nm : nat36 mask <> "") by apply Bm.
  unfold compact_state.
  destruct c as [t|]; [destruct (t =? 0) eqn:Et|].
  - rewrite append_empty_r, (match_compact_mask _ Am Nm). unfold compact_value.
    now rewrite (base36_of_parse _ _ Bm), or_zero_int.
  - assert (Hq : 0 <= t / 1000) by (apply Z.div_pos; [apply Ht; reflexivity | lia]).
    pose proof (base36_of_nat36 _ Hq) as Bt.
    rewrite (match_compact_time _ _ Am Nm (base36_of_alnum _ _ Bt) (proj1 Bt)).
    unfold compact_value.
    now rewrite (base36_of_parse _ _ Bm), (base36_of_parse _ _ Bt), or_zero_int.
  - rewrite append_empty_r, (match_compact_mask _ Am Nm). unfold compact_value.
    now rewrite (base36_of_parse _ _ Bm), or_zero_int.
Qed.



(** C1, as the code has it.  For a state whose mask is in [0, 2^9 - 1] and
    whose creation time is absent or a non-negative number of milliseconds,
    decodeState of the encodeState token has the same mask; its creation
    time is floor(createdAt / 1000) * 1000 when createdAt is present and
    not 0, and absent when createdAt is absent or 0. *)
Theorem decode_encode_round_trip
  (JSON_parse : string -> completion value)
  (JSON_stringify : value -> completion string) (ToNumber_object : value -> num)
  (obj : value) (mask : Z) (c : option Z) :
  remaining obj = VNum (Int mask) -> 0 <= mask <= 511 ->
  createdAt obj = createdAt_value c -> (forall t, c = Some t -> 0 <= t) ->
  let decoded := decodeState JSON_parse (encodeState JSON_stringify ToNumber_object obj) in
  remaining decoded = VNum (Int mask) /\
  createdAt decoded =
    match c with
    | None => VUndefined
    | Some t => if t =? 0 then VUndefined else VNum (Int (t / 1000 * 1000))
    end.
Proof.
  intros Hm Hmask Hc Ht decoded. unfold decoded.
  rewrite (decodeState_encodeState JSON_parse JSON_stringify ToNumber_object obj mask c)
    by assumption.
  split; reflexivity.
Qed.

(** The round trip of the full pool: the milliseconds of the creation time are lost. *)
Lemma decode_encode_round_trip_witness :
  0 <= 511 <= 511 /\
  (forall jp js tn,
     let decoded := decodeState jp (encodeState js tn (draw_state 511 (Some 1730000000123))) in
     remaining decoded = VNum (Int 511) /\
     createdAt decoded = VNum (Int 1730000000000)).
Proof.
  split; [lia|]. intros jp js tn.
  apply (decode_encode_round_trip jp js tn (draw_state 511 (Some 1730000000123)) 511
           (Some 1730000000123)).
  - reflexivity.
  - lia.
  - reflexivity.
  - intros t H. inversion H. lia.
Defined.

(** C1, as the spec states it, fails on a state created at time 0: the token
    is written without a time, and the decoded state has no creation time
    where the spec promises floor(0 / 1000) * 1000.  It fails also on a time
    before 1970: the token is in neither grammar and decodes to null. *)
Lemma round_trip_createdAt_zero :
  createdAt (draw_state 5 (Some 0)) = VNum (Int 0) /\
  (forall jp js tn,
     createdAt (decodeState jp (encodeState js tn (draw_state 5 (Some 0)))) = VUndefined) /\
  VUndefined <> VNum (Int (0 / 1000 * 1000)) /\
  (forall jp js tn,
     decodeState jp (encodeState js tn (draw_state 5 (Some (-1)))) = VNull) /\
  remaining VNull <> VNum (Int 5).
Proof.
  split; [reflexivity|]. split; [reflexivity|]. split; [discriminate|].
  split; [reflexivity | discriminate].
Qed.

(** ** decodeState: the order of the two grammars *)

(** C6.  decodeState is total and tries the legacy grammar first: what
    [JSON.parse] makes of a non-empty base64UrlDecode result is the answer,
    whatever else the string matches; when that attempt fails (base64UrlDecode
    returns null because [atob] or [decodeURIComponent] threw, or
    [JSON.parse] throws) the answer is the object of the compact grammar if
    the string is in it, and null otherwise.  One of the two cases always
    applies, and ["not-a-valid-token!!"] decodes to null. *)
Theorem decodeState_total_order (JSON_parse : string -> completion value) (s : string) :
  (forall json v,
     base64UrlDecode s = Some json -> json <> "" -> JSON_parse json = Normal v ->
     decodeState JSON_parse s = v) /\
  (legacy_fails JSON_parse s ->
   forall m1 m2, compact_token s m1 m2 -> decodeState JSON_parse s = compact_value m1 m2) /\
  (legacy_fails JSON_parse s ->
   (forall m1 m2, ~ compact_token s m1 m2) -> decodeState JSON_parse s = VNull) /\
  ((exists json v, base64UrlDecode s = Some json /\ json <> "" /\ JSON_parse json = Normal v)
   \/ legacy_fails JSON_parse s) /\
  (base64UrlDecode s = None <->
   s = "" \/ atob (atob_input s) = Throw \/
   exists bytes, atob (atob_input s) = Normal bytes /\
                 decodeURIComponent (percent_all bytes) = Throw) /\
  decodeState JSON_parse "not-a-valid-token!!" = VNull.
Proof.
  split; [|split; [|split; [|split; [|split]]]].
  - intros json v. apply decodeState_legacy.
  - intros H m1 m2. now apply decodeState_compact.
  - apply decodeState_unknown.
  - apply legacy_decided.
  - apply base64UrlDecode_null.
  - reflexivity.
Qed.

(** The order decides: ["MTIz"] is in the compact grammar and is Base64 of
    the JSON text [123]; decodeState returns the number. *)
Lemma decodeState_legacy_wins (JSON_parse : string -> completion value) :
  JSON_parse "123" = Normal (VNum (Int 123)) ->
  compact_token "MTIz" "TIz" None /\ decodeState JSON_parse "MTIz" = VNum (Int 123).
Proof.
  intros H. split.
  - apply match_compact_iff. reflexivity.
  - apply (decodeState_legacy JSON_parse "MTIz" "123"); [reflexivity | discriminate | assumption].
Qed.

(** ** decodeState: the mask of a compact token *)

Lemma compact_token_digits (s m1 : string) (m2 : option string) :
  compact_token s m1 m2 -> forall_chars is_alnum m1 = true /\ m1 <> "".
Proof. intros H. destruct H; split; assumption. Qed.




(** The fallback [|| 0] is for [NaN], which [parseInt] returns only where the
    pattern cannot have matched. *)
Lemma or_zero_NaN : or_zero NaN = Int 0.
Proof. reflexivity. Qed.

(** Digits outside the grammar make the token unknown, not a state. *)
Lemma decodeState_malformed_digits :
  forall jp, decodeState jp "m!!" = VNull.
Proof. reflexivity. Qed.

(** ** drawOne *)

Lemma Qfloor_times (r : Q) (n : Z) :
  Qfloor (r * inject_Z n) = (Qnum r * n) / Z.pos (Qden r).
Proof.
  destruct r as [a b]. unfold Qfloor, Qmult, inject_Z. simpl.
  now rewrite Pos.mul_1_r.
Qed.


Lemma floor_in_range (r : Q) (n : positive) :
  (0 <= r)%Q -> (r < 1)%Q -> 0 <= Qfloor (r * inject_Z (Z.pos n)) < Z.pos n.
Proof.
  intros H0 H1. rewrite Qfloor_times. destruct r as [a b].
  unfold Qle, Qlt in *. simpl in *.
  split.
  - apply Z.div_pos; lia.
  - apply Z.div_lt_upper_bound; [lia|]. nia.
Qed.

Lemma list_length_pos {A} (l : list A) :
  l <> [] -> Z.of_nat (List.length l) = Z.pos (Pos.of_nat (List.length l)).
Proof.
  intros H. destruct l; [congruence|]. simpl List.length. lia.
Qed.

(** With [random] in [[0, 1)], the pick is the element at the position
    [Math.floor(random * length)], which is inside the list. *)
Lemma pick_position (avail : list nat) (r : Q) :
  avail <> [] -> (0 <= r)%Q -> (r < 1)%Q ->
  exists j idx,
    Z.of_nat j = Qfloor (r * inject_Z (Z.of_nat (List.length avail))) /\
    nth_error avail j = Some idx /\ pick avail r = Some idx.
Proof.
  intros Hne H0 H1. unfold pick. cbv zeta.
  rewrite (list_length_pos _ Hne).
  pose proof (floor_in_range r (Pos.of_nat (List.length avail)) H0 H1) as Hk.
  rewrite <- (list_length_pos _ Hne) in Hk.
  rewrite (list_length_pos _ Hne) in Hk at 1 2.
  set (k := Qfloor _) in *.
  destruct (k <? 0) eqn:E; [apply Z.ltb_lt in E; lia|].
  destruct (nth_error avail (Z.to_nat k)) as [idx|] eqn:N.
  - exists (Z.to_nat k), idx. split; [lia | split; [assumption | reflexivity]].
  - apply nth_error_None in N. lia.
Qed.

Lemma clear_ok_all : forallb clear_ok (zrange 512) = true.
Proof. vm_compute. reflexivity. Qed.

(** What [clear_ok] says, for one mask in range and one index of [available]. *)
Lemma clear_ok_spec (mask : Z) (idx : nat) :
  0 <= mask <= 511 -> In idx (available (Int mask)) ->
  let newMask := band (Int mask) (Int (bnot (Int (shl (Int 1) (index_num idx))))) in
  Z.testbit mask (Z.of_nat idx) = true /\ (idx < 9)%nat /\
  newMask = Z.land mask (Z.lnot (Z.shiftl 1 (Z.of_nat idx))) /\
  (popcount newMask < popcount mask)%nat /\
  Z.land newMask mask = newMask /\
  0 <= newMask <= 511.
Proof.
  intros Hm Hin newMask.
  assert (C : clear_ok mask = true)
    by (apply (forallb_zrange _ 512 clear_ok_all); simpl; lia).
  unfold clear_ok in C.
  apply andb_true_iff in C as [C _]. apply andb_true_iff in C as [C _].
  apply andb_true_iff in C as [C _].
  rewrite forallb_forall in C. specialize (C idx Hin). cbv zeta in C. fold newMask in C.
  repeat (apply andb_true_iff in C as [C ?]).
  repeat match goal with
         | H : (_ =? _) = true |- _ => apply Z.eqb_eq in H
         | H : (_ <=? _) = true |- _ => apply Z.leb_le in H
         | H : (_ <? _)%nat = true |- _ => apply Nat.ltb_lt in H
         end.
  repeat split; assumption.
Qed.

Lemma available_nonempty (mask : Z) :
  0 <= mask <= 511 -> (available (Int mask) = [] <-> mask = 0).
Proof.
  intros Hm.
  assert (C : clear_ok mask = true)
    by (apply (forallb_zrange _ 512 clear_ok_all); simpl; lia).
  unfold clear_ok in C.
  apply andb_true_iff in C as [C _]. apply andb_true_iff in C as [C C2].
  apply andb_true_iff in C as [_ C1].
  destruct (available (Int mask)) as [|i l]; simpl in *.
  - rewrite orb_false_r in C1. apply Z.eqb_eq in C1. tauto.
  - rewrite orb_false_r in C2. apply negb_true_iff, Z.eqb_neq in C2.
    split; [discriminate | contradiction].
Qed.


Section Draw.

Variable JSON_stringify : value -> completion string.
Variable ToNumber_object : value -> num.

(** drawOne on a state that is there, with a mask that has a bit of the
    pool set and [random] in [[0, 1)]. *)
Lemma drawOne_picks (decoded : value) (mask : num) (r : Q) (now : Z) :
  truthy decoded = true -> state_mask decoded = Normal mask ->
  available mask <> [] -> (0 <= r)%Q -> (r < 1)%Q ->
  exists j idx,
    Z.of_nat j = Qfloor (r * inject_Z (Z.of_nat (List.length (available mask)))) /\
    nth_error (available mask) j = Some idx /\
    drawOne JSON_stringify ToNumber_object false decoded r now =
      let newMask := band mask (Int (bnot (Int (shl (Int 1) (index_num idx))))) in
      let meta0 := get_opt decoded "meta" in
      let meta := if nullish meta0 then VObj [("createdAt", VNum (Int now))] else meta0 in
      let newState := VObj [("mask", VNum (Int newMask)); ("meta", meta)] in
      Normal (Picked (Some idx) (theme idx) newState
                (encodeState JSON_stringify ToNumber_object newState)).
Proof.
  intros Ht Hs Hne H0 H1.
  destruct (pick_position _ r Hne H0 H1) as (j & idx & Hj & Hn & Hp).
  exists j, idx. split; [assumption|]. split; [assumption|].
  unfold drawOne. rewrite Ht, Hs. simpl negb. simpl orb. cbv iota. unfold bind at 1.
  destruct (available mask) as [|a l] eqn:Ha; [congruence|].
  rewrite Hp. reflexivity.
Qed.

Lemma drawOne_exhausted (decoded : value) (mask : num) (r : Q) (now : Z) :
  truthy decoded = true -> state_mask decoded = Normal mask ->
  available mask = [] ->
  drawOne JSON_stringify ToNumber_object false decoded r now = Normal Exhausted.
Proof.
  intros Ht Hs Ha. unfold drawOne. rewrite Ht, Hs. simpl. now rewrite Ha.
Qed.

End Draw.

(** ** The draw transition *)

(** C7.  On a state whose mask is in [0, 2^9 - 1] and not 0, drawOne picks an
    index whose bit is set and publishes the mask without that bit: the new
    mask is [mask & ~(1 << idx)], has fewer bits set and brings no bit back.
    On the mask 0 it returns at the empty [available] and picks nothing. *)
Theorem draw_clears_one_bit
  (JSON_stringify : value -> completion string) (ToNumber_object : value -> num)
  (decoded : value) (mask : Z) (r : Q) (now : Z) :
  truthy decoded = true -> state_mask decoded = Normal (Int mask) ->
  0 <= mask <= 511 -> (0 <= r)%Q -> (r < 1)%Q ->
  let result := drawOne JSON_stringify ToNumber_object false decoded r now in
  (mask = 0 -> result = Normal Exhausted) /\
  (mask <> 0 ->
   exists idx newMask newState,
     result = Normal (Picked (Some idx) (theme idx) newState
                        (encodeState JSON_stringify ToNumber_object newState)) /\
     (idx < 9)%nat /\ Z.testbit mask (Z.of_nat idx) = true /\
     remaining newState = VNum (Int newMask) /\
     newMask = Z.land mask (Z.lnot (Z.shiftl 1 (Z.of_nat idx))) /\
     (popcount newMask < popcount mask)%nat /\
     Z.land newMask mask = newMask).
Proof.
  intros Ht Hs Hm H0 H1 result. split.
  - intros Hz. apply (drawOne_exhausted _ _ decoded (Int mask)); try assumption.
    now apply available_nonempty.
  - intros Hnz.
    assert (Hne : available (Int mask) <> []).
    { intros E. apply Hnz. now apply available_nonempty. }
    destruct (drawOne_picks JSON_stringify ToNumber_object decoded (Int mask) r now
                Ht Hs Hne H0 H1) as (j & idx & _ & Hn & Hd).
    apply nth_error_In in Hn.
    destruct (clear_ok_spec mask idx Hm Hn) as (B & Hi & E & P & L & _).
    eexists idx, _, _. split; [exact Hd|].
    split; [assumption|]. split; [assumption|]. split; [reflexivity|].
    split; [assumption|]. split; assumption.
Qed.

(** A draw on the full pool. *)
Lemma draw_clears_one_bit_witness :
  0 <= 511 <= 511 /\
  (forall js tn,
     exists idx newMask newState,
       drawOne js tn false (draw_state 511 None) (1 # 2) 0
       = Normal (Picked (Some idx) (theme idx) newState (encodeState js tn newState)) /\
       (idx < 9)%nat /\ Z.testbit 511 (Z.of_nat idx) = true /\
       remaining newState = VNum (Int newMask) /\
       newMask = Z.land 511 (Z.lnot (Z.shiftl 1 (Z.of_nat idx))) /\
       (popcount newMask < popcount 511)%nat /\
       Z.land newMask 511 = newMask).
Proof.
  split; [lia|]. intros js tn.
  apply (draw_clears_one_bit js tn (draw_state 511 None) 511 (1 # 2) 0);
    try reflexivity; try lia; discriminate.
Defined.






(** ** The range of the mask *)




(** ** The mask of a legacy payload *)

Lemma ToInt32_mod (a : Z) : ToInt32 a mod 2 ^ 32 = a mod 2 ^ 32.
Proof.
  unfold ToInt32. cbv zeta. destruct (a mod 2 ^ 32 <? 2 ^ 31).
  - apply Z.mod_mod. lia.
  - replace (a mod 2 ^ 32 - 2 ^ 32) with (a mod 2 ^ 32 + (-1) * 2 ^ 32) by lia.
    rewrite Z.mod_add by lia. apply Z.mod_mod. lia.
Qed.

Lemma ToInt32_testbit (a k : Z) :
  0 <= k < 32 -> Z.testbit (ToInt32 a) k = Z.testbit a k.
Proof.
  intros Hk.
  rewrite <- (Z.mod_pow2_bits_low (ToInt32 a) 32 k) by lia.
  rewrite <- (Z.mod_pow2_bits_low a 32 k) by lia.
  now rewrite ToInt32_mod.
Qed.

(** The [reduce] of drawOne visits the positions of the [items] array, not
    the indices of the pool: a bit at or above the number of items is never
    set. *)
Lemma reduce_mask_positions (items : value) (arr : list value) (i : nat) (acc r : Z) :
  reduce_mask items arr i acc = Normal r ->
  forall k, (i + List.length arr <= k < 31)%nat ->
  Z.testbit acc (Z.of_nat k) = false -> Z.testbit r (Z.of_nat k) = false.
Proof.
  revert i acc. induction arr as [|x arr IH]; intros i acc H k Hk Hacc.
  - simpl in H. inversion H. now subst.
  - simpl in H. destruct (items_some items i) as [hit|]; [|discriminate].
    simpl in H. apply (IH _ _ H k); [simpl in Hk; lia|].
    destruct hit; [|assumption].
    assert (Hi : (i < k)%nat) by (simpl in Hk; lia).
    unfold bor, shl, index_num. simpl ToInt32_num.
    rewrite Z.lor_spec, !ToInt32_testbit, Hacc by lia. simpl orb.
    assert (E : ToInt32 (Z.of_nat i) mod 32 = Z.of_nat i).
    { unfold ToInt32. cbv zeta.
      rewrite (Z.mod_small (Z.of_nat i) (2 ^ 32)) by lia.
      destruct (Z.of_nat i <? 2 ^ 31) eqn:E; [|apply Z.ltb_ge in E; lia].
      apply Z.mod_small. lia. }
    rewrite E. change (ToInt32 1) with 1.
    rewrite Z.shiftl_spec by lia.
    apply Z.bits_above_log2; [lia | simpl; lia].
Qed.

(** C2 on the code.  The legacy token of a payload that lists Pool[2] and
    Pool[5] decodes to that payload, and the mask drawOne rebuilds from it
    is 0, not [(1 << 2) | (1 << 5)]: the draw finds nothing available. *)
Theorem legacy_mask_of_two_items :
  base64UrlDecode legacy_token_2_5 = Some legacy_doc_2_5 /\
  (forall jp, jp legacy_doc_2_5 = Normal legacy_payload_2_5 ->
              decodeState jp legacy_token_2_5 = legacy_payload_2_5) /\
  state_mask legacy_payload_2_5 = Normal (Int 0) /\
  (forall js tn r now, drawOne js tn false legacy_payload_2_5 r now = Normal Exhausted) /\
  bor (Int (shl (Int 1) (Int 2))) (Int (shl (Int 1) (Int 5))) = 36.
Proof.
  split; [vm_compute; reflexivity|]. split.
  - intros jp H.
    apply (decodeState_legacy jp legacy_token_2_5 legacy_doc_2_5);
      [vm_compute; reflexivity | discriminate | assumption].
  - split; [reflexivity|]. split; [reflexivity | reflexivity].
Qed.

(** The same payload with the ids of the compact branch. *)
Example legacy_mask_ids_2_5 :
  state_mask (VObj [("items", VArr [VObj [("id", VStr "2"); ("label", VStr "Swimming")];
                                 VObj [("id", VStr "5"); ("label", VStr "Badminton")]])])
  = Normal (Int 0).
Proof. reflexivity. Qed.

(** A payload that lists all of the pool but Pool[0] loses Pool[8]. *)
Example legacy_mask_eight_items :
  state_mask (VObj [("items",
                 VArr (map (fun label => VObj [("id", VStr "x"); ("label", VStr label)])
                         (tl DEFAULT_THEMES)))])
  = Normal (Int 254).
Proof. reflexivity. Qed.

(** A payload that lists the whole pool gets the full mask. *)
Example legacy_mask_all_items :
  state_mask (VObj [("items",
                 VArr (map (fun label => VObj [("id", VStr "x"); ("label", VStr label)])
                         DEFAULT_THEMES))])
  = Normal (Int 511).
Proof. reflexivity. Qed.

(** ** base64UrlEncode and base64UrlDecode *)

Lemma code_range (c : ascii) : 0 <= code c < 256.
Proof. unfold code. pose proof (N_ascii_bounded c). lia. Qed.

Lemma chr_code (c : ascii) : chr (code c) = c.
Proof.
  unfold chr, code. rewrite N2Z.id. apply ascii_N_embedding.
Qed.

Lemma len_app (a b : string) : len (a ++ b) = len a + len b.
Proof.
  unfold len. induction a as [|c a IH]; simpl String.length; [lia|].
  rewrite !Nat2Z.inj_succ. simpl in IH. lia.
Qed.

Lemma len_cons (c : ascii) (s : string) : len (String c s) = 1 + len s.
Proof. unfold len. simpl String.length. lia. Qed.

(** Strings three characters at a time. *)
Lemma string_ind3 (P : string -> Prop) :
  P "" ->
  (forall a, P (String a "")) ->
  (forall a b, P (String a (String b ""))) ->
  (forall a b c rest, P rest -> P (String a (String b (String c rest)))) ->
  forall s, P s.
Proof.
  intros H0 H1 H2 H3 s.
  assert (A : P s /\ (forall a, P (String a s)) /\ (forall a b, P (String a (String b s)))).
  { induction s as [|c s (I0 & I1 & I2)].
    - repeat split; auto.
    - repeat split; auto. }
  apply A.
Qed.

Lemma b64_char_spec (i : Z) :
  0 <= i < 64 -> sextet (b64_char i) = i /\ is_b64 (b64_char i) = true.
Proof.
  intros H.
  assert (A : forallb (fun i => (sextet (b64_char i) =? i) && is_b64 (b64_char i))
                (zrange 64) = true) by (vm_compute; reflexivity).
  pose proof (forallb_zrange _ _ A i H) as B. cbv beta in B.
  apply andb_true_iff in B as [B1 B2]. apply Z.eqb_eq in B1. now split.
Qed.

Lemma is_b64_char (i : Z) : 0 <= i < 64 -> is_b64 (b64_char i) = true.
Proof. intros H. apply (b64_char_spec i H). Qed.

Lemma sextet_char (i : Z) : 0 <= i < 64 -> sextet (b64_char i) = i.
Proof. intros H. apply (b64_char_spec i H). Qed.

Lemma btoa_split (s : string) : btoa s = b64_body s ++ b64_padding s.
Proof.
  unfold btoa. induction s as [| a | a b | a b c rest IH] using string_ind3;
    try reflexivity.
  cbn [b64_chars b64_body b64_padding]. cbv zeta. rewrite IH. reflexivity.
Qed.

Lemma b64_body_chars (s : string) : forall_chars is_b64 (b64_body s) = true.
Proof.
  induction s as [| a | a b | a b c rest IH] using string_ind3.
  - reflexivity.
  - pose proof (code_range a). cbn [b64_body forall_chars]. cbv zeta.
    rewrite !is_b64_char by (Z.div_mod_to_equations; lia). reflexivity.
  - pose proof (code_range a). pose proof (code_range b).
    cbn [b64_body forall_chars]. cbv zeta.
    rewrite !is_b64_char by (Z.div_mod_to_equations; lia). reflexivity.
  - pose proof (code_range a). pose proof (code_range b). pose proof (code_range c).
    cbn [b64_body forall_chars]. cbv zeta. rewrite IH.
    rewrite !is_b64_char by (Z.div_mod_to_equations; lia). reflexivity.
Qed.

(** The bytes of the body are the bytes encoded. *)
Lemma b64_bytes_body (s : string) : b64_bytes (b64_body s) = s.
Proof.
  induction s as [| a | a b | a b c rest IH] using string_ind3.
  - reflexivity.
  - pose proof (code_range a) as Ha. cbn [b64_body b64_bytes]. cbv zeta.
    rewrite !sextet_char by (Z.div_mod_to_equations; lia).
    replace ((code a * 16 / 64 * 64 + code a * 16 mod 64) / 16) with (code a)
      by (Z.div_mod_to_equations; lia).
    now rewrite chr_code.
  - pose proof (code_range a) as Ha. pose proof (code_range b) as Hb.
    cbn [b64_body b64_bytes]. cbv zeta.
    rewrite !sextet_char by (Z.div_mod_to_equations; lia).
    set (n := code a * 1024 + code b * 4).
    replace ((n / 4096 * 4096 + n / 64 mod 64 * 64 + n mod 64) / 1024) with (code a)
      by (unfold n; Z.div_mod_to_equations; lia).
    replace ((n / 4096 * 4096 + n / 64 mod 64 * 64 + n mod 64) / 4 mod 256) with (code b)
      by (unfold n; Z.div_mod_to_equations; lia).
    now rewrite !chr_code.
  - pose proof (code_range a) as Ha. pose proof (code_range b) as Hb.
    pose proof (code_range c) as Hc.
    cbn [b64_body b64_bytes]. cbv zeta.
    rewrite !sextet_char by (Z.div_mod_to_equations; lia).
    set (n := code a * 65536 + code b * 256 + code c).
    set (n' := n / 262144 * 262144 + n / 4096 mod 64 * 4096 + n / 64 mod 64 * 64 + n mod 64).
    assert (E : n' = n) by (unfold n'; Z.div_mod_to_equations; lia).
    rewrite E, IH.
    replace (n / 65536) with (code a) by (unfold n; Z.div_mod_to_equations; lia).
    replace (n / 256 mod 256) with (code b) by (unfold n; Z.div_mod_to_equations; lia).
    replace (n mod 256) with (code c) by (unfold n; Z.div_mod_to_equations; lia).
    now rewrite !chr_code.
Qed.

Lemma b64_not_whitespace (c : ascii) :
  is_b64 c = true -> negb (is_ascii_whitespace c) = true.
Proof. all_chars c. Qed.

Lemma b64_not_eq (c : ascii) : is_b64 c = true -> (code c =? 61) = false.
Proof. all_chars c. Qed.

Lemma eq_not_whitespace (c : ascii) :
  (code c =? 61) = true -> negb (is_ascii_whitespace c) = true.
Proof. all_chars c. Qed.

Lemma url_safe_unsafe (c : ascii) : is_b64 c = true -> url_unsafe (url_safe c) = c.
Proof. all_chars c. Qed.

Lemma url_safe_url64 (c : ascii) : is_b64 c = true -> is_url64 (url_safe c) = true.
Proof. all_chars c. Qed.

Lemma url_safe_not_eq (c : ascii) : is_b64 c = true -> (code (url_safe c) =? 61) = false.
Proof. all_chars c. Qed.

Lemma filter_chars_all (p : ascii -> bool) (s : string) :
  forall_chars p s = true -> filter_chars p s = s.
Proof.
  induction s as [|c s IH]; simpl; [reflexivity|].
  intros H. apply andb_true_iff in H as [Hc Hs]. now rewrite Hc, IH.
Qed.

Lemma ends_with_eq_b64 (s : string) : forall_chars is_b64 s = true -> ends_with_eq s = false.
Proof.
  induction s as [|c s IH]; [reflexivity|].
  intros H. simpl in H. apply andb_true_iff in H as [Hc Hs].
  destruct s as [|c' s]; [simpl; now apply b64_not_eq|].
  change (ends_with_eq (String c (String c' s))) with (ends_with_eq (String c' s)).
  now apply IH.
Qed.

Lemma ends_with_eq_snoc (s : string) (c : ascii) :
  ends_with_eq (s ++ String c "") = (code c =? 61).
Proof.
  induction s as [|x s IH]; [reflexivity|].
  simpl append. destruct (s ++ String c "") eqn:E.
  - destruct s; discriminate.
  - rewrite <- IH. reflexivity.
Qed.

Lemma drop_last_snoc (s : string) (c : ascii) : drop_last (s ++ String c "") = s.
Proof.
  induction s as [|x s IH]; [reflexivity|].
  simpl append. destruct (s ++ String c "") eqn:E.
  - destruct s; discriminate.
  - change (drop_last (String x (String a s0))) with (String x (drop_last (String a s0))).
    now rewrite IH.
Qed.

Lemma b64_len_cases (s : string) :
  (b64_padding s = "" /\ len (b64_body s) mod 4 = 0) \/
  (b64_padding s = "=" /\ len (b64_body s) mod 4 = 3) \/
  (b64_padding s = "==" /\ len (b64_body s) mod 4 = 2).
Proof.
  induction s as [| a | a b | a b c rest IH] using string_ind3.
  - left. split; reflexivity.
  - right. right. split; reflexivity.
  - right. left. split; reflexivity.
  - cbn [b64_body b64_padding]. cbv zeta. rewrite !len_cons.
    replace (1 + (1 + (1 + (1 + len (b64_body rest))))) with (len (b64_body rest) + 1 * 4) by lia.
    rewrite Z.mod_add by lia. exact IH.
Qed.

Lemma strip_padding_btoa (s : string) :
  strip_padding (b64_body s ++ b64_padding s) = b64_body s.
Proof.
  pose proof (ends_with_eq_b64 _ (b64_body_chars s)) as He.
  unfold strip_padding. rewrite len_app.
  destruct (b64_len_cases s) as [[-> Hl] | [[-> Hl] | [-> Hl]]].
  - rewrite append_empty_r, He, andb_false_r. reflexivity.
  - rewrite ends_with_eq_snoc, drop_last_snoc, He.
    change (len "=") with 1.
    replace ((len (b64_body s) + 1) mod 4) with 0 by (Z.div_mod_to_equations; lia).
    reflexivity.
  - change "==" with ("=" ++ "="). rewrite <- append_assoc.
    rewrite ends_with_eq_snoc, drop_last_snoc, ends_with_eq_snoc, drop_last_snoc.
    match goal with
    | |- context [?x mod 4 =? 0] =>
        replace (x mod 4) with 0 by (unfold len in *; simpl; Z.div_mod_to_equations; lia)
    end.
    reflexivity.
Qed.

(** [atob] reads back what [btoa] wrote. *)
Lemma atob_btoa (s : string) : atob (btoa s) = Normal s.
Proof.
  rewrite btoa_split. unfold atob. cbv zeta.
  rewrite filter_chars_all.
  - rewrite strip_padding_btoa, b64_body_chars, b64_bytes_body.
    destruct (b64_len_cases s) as [[_ Hl] | [[_ Hl] | [_ Hl]]]; rewrite Hl; reflexivity.
  - rewrite forall_chars_app. apply andb_true_iff. split.
    + apply (forall_chars_impl is_b64); [apply b64_not_whitespace | apply b64_body_chars].
    + destruct (b64_len_cases s) as [[-> _] | [[-> _] | [-> _]]]; reflexivity.
Qed.

Lemma pad4_body (s : string) : pad4 (b64_body s) = b64_body s ++ b64_padding s.
Proof.
  unfold pad4. cbv zeta.
  destruct (b64_len_cases s) as [[-> Hl] | [[-> Hl] | [-> Hl]]]; rewrite Hl; simpl;
    [now rewrite append_empty_r | reflexivity | reflexivity].
Qed.

Lemma map_chars_app (f : ascii -> ascii) (a b : string) :
  map_chars f (a ++ b) = map_chars f a ++ map_chars f b.
Proof. induction a as [|c a IH]; simpl; [reflexivity | now rewrite IH]. Qed.

Lemma map_unsafe_safe (s : string) :
  forall_chars is_b64 s = true -> map_chars url_unsafe (map_chars url_safe s) = s.
Proof.
  induction s as [|c s IH]; simpl; [reflexivity|].
  intros H. apply andb_true_iff in H as [Hc Hs]. now rewrite url_safe_unsafe, IH.
Qed.

Lemma strip_eq_end_app (a p : string) :
  forall_chars (fun c => negb (code c =? 61)) a = true ->
  forall_chars (fun c => code c =? 61) p = true ->
  strip_eq_end (a ++ p) = a.
Proof.
  intros Ha Hp. induction a as [|c a IH].
  - simpl. destruct p as [|x p]; [reflexivity|]. cbn [strip_eq_end]. now rewrite Hp.
  - simpl in Ha. apply andb_true_iff in Ha as [Hc Ha].
    simpl append. cbn [strip_eq_end forall_chars].
    apply negb_true_iff in Hc. rewrite Hc. simpl. now rewrite IH.
Qed.

(** What base64UrlEncode returns on a well-formed text. *)
Lemma base64UrlEncode_body (str : string) :
  well_formed str = true -> base64UrlEncode str = map_chars url_safe (b64_body str).
Proof.
  unfold well_formed, base64UrlEncode. intros H.
  destruct (decodeURIComponent (percent_all str)); [|discriminate].
  rewrite btoa_split, map_chars_app. apply strip_eq_end_app.
  - pose proof (b64_body_chars str) as B. revert B.
    generalize (b64_body str). intros b. induction b as [|c b IH]; simpl; [reflexivity|].
    intros H'. apply andb_true_iff in H' as [Hc Hb].
    now rewrite (url_safe_not_eq _ Hc), IH.
  - destruct (b64_len_cases str) as [[-> _] | [[-> _] | [-> _]]]; reflexivity.
Qed.

Lemma base64UrlEncode_ill_formed (str : string) :
  well_formed str = false -> base64UrlEncode str = "".
Proof.
  unfold well_formed, base64UrlEncode. intros H.
  destruct (decodeURIComponent (percent_all str)); [discriminate | reflexivity].
Qed.

Lemma b64_body_nonempty (s : string) : s <> "" -> b64_body s <> "".
Proof.
  destruct s as [|a [|b [|c rest]]]; [congruence | | |]; intros _; discriminate.
Qed.

Lemma hex_digit_value (d : Z) : 0 <= d < 16 -> hex_value (hex_digit d) = Some d.
Proof.
  intros H.
  assert (A : forallb (fun d => match hex_value (hex_digit d) with
                                | Some x => x =? d
                                | None => false
                                end) (zrange 16) = true) by (vm_compute; reflexivity).
  pose proof (forallb_zrange _ _ A d H) as B. cbv beta in B.
  destruct (hex_value (hex_digit d)); [|discriminate].
  apply Z.eqb_eq in B. now subst.
Qed.

Lemma unescape_percent_all (s : string) : unescape (percent_all s) = Normal (escs s).
Proof.
  induction s as [|c s IH]; [reflexivity|].
  pose proof (code_range c) as Hc.
  cbn [percent_all percent append unescape escs].
  rewrite !hex_digit_value by (Z.div_mod_to_equations; lia).
  rewrite IH. unfold bind. f_equal. f_equal. f_equal.
  Z.div_mod_to_equations; lia.
Qed.

(** [decodeURIComponent] returns the bytes it was given, when it returns. *)
Lemma utf8_units_escs (n : nat) (s r : string) :
  (String.length s <= n)%nat -> utf8_units (escs s) = Normal r -> r = s.
Proof.
  revert s r. induction n as [|n IH]; intros s r Hl H.
  - destruct s; [|simpl in Hl; lia]. simpl in H. now inversion H.
  - destruct s as [|c s]; [simpl in H; now inversion H|].
    simpl in Hl. cbn [escs utf8_units] in H.
    destruct (code c <? 128).
    + destruct (utf8_units (escs s)) as [r'|] eqn:E; [|discriminate].
      simpl in H. inversion H. rewrite chr_code. f_equal. apply IH; [lia | assumption].
    + destruct (code c <? 192); [discriminate|].
      destruct (code c <? 224).
      * destruct s as [|c1 s]; [discriminate|]. cbn [escs] in H.
        destruct (is_cont (code c1) && _); [|discriminate].
        destruct (utf8_units (escs s)) as [r'|] eqn:E; [|discriminate].
        simpl in H. inversion H. unfold byte_str. simpl. rewrite !chr_code.
        do 2 f_equal. apply IH; [simpl in Hl; lia | assumption].
      * destruct (code c <? 240).
        -- destruct s as [|c1 [|c2 s]]; try discriminate. cbn [escs] in H. cbv zeta in H.
           destruct (is_cont (code c1) && _ && _ && _); [|discriminate].
           destruct (utf8_units (escs s)) as [r'|] eqn:E; [|discriminate].
           simpl in H. inversion H. unfold byte_str. simpl. rewrite !chr_code.
           do 3 f_equal. apply IH; [simpl in Hl; lia | assumption].
        -- destruct (code c <? 248); [|discriminate].
           destruct s as [|c1 [|c2 [|c3 s]]]; try discriminate. cbn [escs] in H. cbv zeta in H.
           destruct (is_cont (code c1) && _ && _ && _ && _); [|discriminate].
           destruct (utf8_units (escs s)) as [r'|] eqn:E; [|discriminate].
           simpl in H. inversion H. unfold byte_str. simpl. rewrite !chr_code.
           do 4 f_equal. apply IH; [simpl in Hl; lia | assumption].
Qed.

Lemma decodeURIComponent_percent_all (s r : string) :
  decodeURIComponent (percent_all s) = Normal r -> r = s.
Proof.
  unfold decodeURIComponent. rewrite unescape_percent_all. simpl bind.
  apply (utf8_units_escs (String.length s)). lia.
Qed.

Lemma well_formed_decode (s : string) :
  well_formed s = true -> decodeURIComponent (percent_all s) = Normal s.
Proof.
  unfold well_formed. intros H.
  destruct (decodeURIComponent (percent_all s)) as [r|] eqn:E; [|discriminate].
  now rewrite (decodeURIComponent_percent_all _ _ E).
Qed.

(** A text of ASCII characters is well formed. *)
Lemma ascii_well_formed (s : string) :
  forall_chars is_ascii_char s = true -> well_formed s = true.
Proof.
  intros H. unfold well_formed, decodeURIComponent.
  rewrite unescape_percent_all. simpl bind.
  assert (E : utf8_units (escs s) = Normal s).
  { induction s as [|c s IH]; [reflexivity|].
    simpl in H. apply andb_true_iff in H as [Hc Hs]. unfold is_ascii_char in Hc.
    cbn [escs utf8_units]. rewrite Hc, (IH Hs). simpl. now rewrite chr_code. }
  now rewrite E.
Qed.

(** The round trip of the two helpers, as a lemma the properties share. *)
Lemma base64Url_round_trip (str : string) :
  str <> "" -> well_formed str = true ->
  base64UrlDecode (base64UrlEncode str) = Some str.
Proof.
  intros Hne Hw. rewrite (base64UrlEncode_body _ Hw). unfold base64UrlDecode.
  pose proof (b64_body_nonempty _ Hne) as Hb.
  destruct (map_chars url_safe (b64_body str)) eqn:E.
  - destruct (b64_body str); [congruence | discriminate].
  - change (String.eqb (String a s) "") with false. cbv iota. rewrite <- E.
    rewrite (map_unsafe_safe _ (b64_body_chars str)), pad4_body, <- btoa_split, atob_btoa.
    unfold bind. rewrite (well_formed_decode _ Hw). reflexivity.
Qed.

Lemma base64UrlEncode_url64 (str : string) :
  forall_chars is_url64 (base64UrlEncode str) = true.
Proof.
  destruct (well_formed str) eqn:Hw.
  - rewrite (base64UrlEncode_body _ Hw).
    pose proof (b64_body_chars str) as B. revert B.
    generalize (b64_body str). intros b. induction b as [|c b IH]; simpl; [reflexivity|].
    intros H. apply andb_true_iff in H as [Hc Hb].
    now rewrite (url_safe_url64 _ Hc), IH.
  - now rewrite (base64UrlEncode_ill_formed _ Hw).
Qed.

(** X1.  base64UrlDecode gives back every non-empty well-formed text that
    base64UrlEncode wrote, and what base64UrlEncode writes has only letters,
    digits, [-] and [_]; the empty text is written as the empty string,
    which base64UrlDecode answers with null. *)
Theorem base64Url_decode_encode (str : string) :
  str <> "" -> well_formed str = true ->
  base64UrlDecode (base64UrlEncode str) = Some str /\
  forall_chars is_url64 (base64UrlEncode str) = true /\
  base64UrlEncode str <> "" /\
  base64UrlDecode (base64UrlEncode "") = None.
Proof.
  intros Hne Hw.
  split; [now apply base64Url_round_trip|].
  split; [apply base64UrlEncode_url64|].
  split; [|reflexivity].
  rewrite (base64UrlEncode_body _ Hw).
  pose proof (b64_body_nonempty _ Hne) as Hb.
  destruct (b64_body str); [congruence | discriminate].
Qed.

(** The round trip of a legacy document. *)
Lemma base64Url_decode_encode_witness :
  legacy_doc_2_5 <> "" /\ well_formed legacy_doc_2_5 = true /\
  base64UrlDecode (base64UrlEncode legacy_doc_2_5) = Some legacy_doc_2_5.
Proof.
  split; [discriminate|]. split; [vm_compute; reflexivity|].
  apply (base64Url_decode_encode legacy_doc_2_5); [discriminate | vm_compute; reflexivity].
Defined.

(** ** encodeState on every value *)

Lemma url64_unreserved (c : ascii) : is_url64 c = true -> is_unreserved c = true.
Proof. all_chars c. Qed.

Lemma lower36_unreserved (c : ascii) : is_lower36 c = true -> is_unreserved c = true.
Proof. all_chars c. Qed.

Lemma toString36_unreserved (n : num) : forall_chars is_unreserved (toString36 n) = true.
Proof.
  assert (N : forall z, 0 <= z -> forall_chars is_unreserved (nat36 z) = true).
  { intros z Hz. destruct (nat36_spec z Hz) as (_ & H & _).
    apply (forall_chars_impl is_lower36); [apply lower36_unreserved | assumption]. }
  destruct n as [|z]; [reflexivity|]. unfold toString36.
  destruct (z <? 0) eqn:E.
  - apply Z.ltb_lt in E. simpl. apply N. lia.
  - apply Z.ltb_ge in E. now apply N.
Qed.

(** X2.  Whatever value encodeState is given, the string it returns has
    only letters, digits, [-], [_] and [.]: the program puts it after
    [?state=] as it is, and no character of it needs an escape there. *)
Theorem encodeState_unreserved
  (JSON_stringify : value -> completion string) (ToNumber_object : value -> num)
  (obj : value) :
  forall_chars is_unreserved (encodeState JSON_stringify ToNumber_object obj) = true.
Proof.
  unfold encodeState.
  assert (F : forall_chars is_unreserved
                (match JSON_stringify obj with
                 | Normal json => base64UrlEncode json
                 | Throw => ""
                 end) = true).
  { destruct (JSON_stringify obj) as [json|]; [|reflexivity].
    apply (forall_chars_impl is_url64); [apply url64_unreserved | apply base64UrlEncode_url64]. }
  destruct (get_opt obj "mask") as [| | b | mask | s | xs | fields]; try exact F.
  cbv zeta. simpl. rewrite forall_chars_app, toString36_unreserved. simpl.
  destruct (truthy (get_opt (get_opt obj "meta") "createdAt")); [|reflexivity].
  set (time := toString36 _).
  destruct (negb (String.eqb time "")); [|reflexivity].
  simpl. apply toString36_unreserved.
Qed.

(** ** The legacy branch of encodeState *)

(** X3.  A value without a numeric [mask] goes through the legacy grammar
    and comes back: when [JSON.stringify] gives a non-empty well-formed text
    for it and [JSON.parse] reads that text back as the value, decodeState of
    the encodeState string is the value, and that string is the
    base64UrlEncode of the text. *)
Theorem legacy_state_round_trip
  (JSON_parse : string -> completion value)
  (JSON_stringify : value -> completion string) (ToNumber_object : value -> num)
  (obj : value) (json : string) :
  is_number (get_opt obj "mask") = false ->
  JSON_stringify obj = Normal json -> json <> "" -> well_formed json = true ->
  JSON_parse json = Normal obj ->
  encodeState JSON_stringify ToNumber_object obj = base64UrlEncode json /\
  decodeState JSON_parse (encodeState JSON_stringify ToNumber_object obj) = obj.
Proof.
  intros Hm Hs Hne Hw Hp.
  assert (E : encodeState JSON_stringify ToNumber_object obj = base64UrlEncode json).
  { unfold encodeState. rewrite Hs.
    destruct (get_opt obj "mask"); try reflexivity. discriminate. }
  split; [assumption|]. rewrite E.
  apply (decodeState_legacy JSON_parse _ json); [|assumption|assumption].
  now apply base64Url_round_trip.
Qed.

(** The legacy payload of the examples, through both functions. *)
Lemma legacy_state_round_trip_witness :
  is_number (get_opt legacy_payload_2_5 "mask") = false /\
  decodeState parse_2_5 (encodeState stringify_2_5 (fun _ => NaN) legacy_payload_2_5)
  = legacy_payload_2_5.
Proof.
  split; [reflexivity|].
  apply (legacy_state_round_trip parse_2_5 stringify_2_5 (fun _ => NaN)
           legacy_payload_2_5 legacy_doc_2_5);
    try (vm_compute; reflexivity); discriminate.
Defined.

(** ** The items of a compact state *)

Lemma items_of_pairs (p : nat -> bool) (themes : list string) (i : nat) :
  filter truthy
    (mapi (fun label index =>
             if p index
             then VObj [("id", VStr (String_of_index index)); ("label", VStr label)]
             else VNull) i themes)
  = map (fun kl => VObj [("id", VStr (String_of_index (fst kl))); ("label", VStr (snd kl))])
      (filter (fun kl => p (fst kl)) (combine (seq i (List.length themes)) themes)).
Proof.
  revert i. induction themes as [|label themes IH]; intros i; [reflexivity|].
  cbn [mapi List.length seq combine filter fst]. destruct (p i).
  - cbn [truthy map fst snd]. now rewrite IH.
  - cbn [truthy]. apply IH.
Qed.

Lemma pairs_are_pool_items (p : nat -> bool) (l : list (nat * string)) :
  Forall (fun kl => theme (fst kl) = VStr (snd kl)) l ->
  map (fun kl => VObj [("id", VStr (String_of_index (fst kl))); ("label", VStr (snd kl))])
    (filter (fun kl => p (fst kl)) l)
  = map pool_item (filter p (map fst l)).
Proof.
  induction l as [|[k label] l IH]; intros H; [reflexivity|].
  inversion H as [|? ? Hk Hl]; subst. cbn [filter map fst].
  destruct (p k).
  - cbn [map fst snd]. unfold pool_item at 1. simpl in Hk. rewrite Hk. now rewrite IH.
  - now apply IH.
Qed.

(** The [items] the compact branch builds are the entries of the pool at
    the indices of [available], in that order. *)
Lemma compact_items_available (mask : num) :
  compact_items mask = map pool_item (available mask).
Proof.
  unfold compact_items, available.
  rewrite items_of_pairs, pairs_are_pool_items.
  - reflexivity.
  - repeat constructor.
Qed.

Lemma compact_value_mask (m1 : string) (m2 : option string) :
  state_mask (compact_value m1 m2) = Normal (or_zero (parseInt36 m1)).
Proof. reflexivity. Qed.

(** X4.  The state decodeState builds from a compact token lists in [items]
    exactly the pool entries that drawOne can pick from it: the entries at
    the indices of [available] for its mask, in pool order, each with its
    index as [id]; so the count the page shows is the number of draws left. *)
Theorem compact_items_are_available
  (JSON_parse : string -> completion value) (s m1 : string) (m2 : option string) :
  legacy_fails JSON_parse s -> compact_token s m1 m2 ->
  let decoded := decodeState JSON_parse s in
  exists mask,
    state_mask decoded = Normal mask /\
    get_opt decoded "items" = VArr (map pool_item (available mask)) /\
    List.length (map pool_item (available mask)) = List.length (available mask) /\
    NoDup (available mask) /\
    (forall i, In i (available mask) -> (i < 9)%nat /\ exists label, theme i = VStr label).
Proof.
  intros Hl Hc decoded. unfold decoded.
  rewrite (decodeState_compact JSON_parse _ _ _ Hl Hc).
  exists (or_zero (parseInt36 m1)).
  split; [reflexivity|].
  split; [unfold compact_value; simpl; now rewrite compact_items_available|].
  split; [apply length_map|].
  split; [unfold available; apply NoDup_filter, seq_NoDup|].
  intros i Hi. unfold available in Hi. apply filter_In in Hi as [Hi _].
  apply in_seq in Hi. change (List.length DEFAULT_THEMES) with 9%nat in Hi.
  split; [lia|].
  do 9 (destruct i as [|i]; [eexists; reflexivity|]). lia.
Qed.

(** The items of ["m5"]: Pool[0] and Pool[2]. *)
Lemma compact_items_are_available_witness :
  compact_token "m5" "5" None /\
  (forall jp, get_opt (decodeState jp "m5") "items" = VArr [pool_item 0; pool_item 2]).
Proof.
  assert (C : compact_token "m5" "5" None) by (apply match_compact_iff; reflexivity).
  split; [assumption|]. intros jp.
  destruct (compact_items_are_available jp "m5" "5" None) as (mask & Hm & Hi & _);
    [left; reflexivity | assumption |].
  rewrite Hi. inversion Hm. reflexivity.
Defined.

(** ** From a link to the next *)

Lemma clear_removes_all : forallb clear_removes (zrange 512) = true.
Proof. vm_compute. reflexivity. Qed.

Lemma available_after_clear (mask : Z) (idx : nat) :
  0 <= mask <= 511 -> In idx (available (Int mask)) ->
  available (Int (band (Int mask) (Int (bnot (Int (shl (Int 1) (index_num idx)))))))
  = filter (fun i => negb (Nat.eqb i idx)) (available (Int mask)).
Proof.
  intros Hm Hin.
  assert (C : clear_removes mask = true)
    by (apply (forallb_zrange _ 512 clear_removes_all); simpl; lia).
  unfold clear_removes in C. rewrite forallb_forall in C.
  specialize (C idx Hin). cbv zeta in C.
  destruct (list_eq_dec Nat.eq_dec _ _) as [E|]; [exact E | discriminate].
Qed.

Lemma available_NoDup (mask : num) : NoDup (available mask).
Proof. unfold available. apply NoDup_filter, seq_NoDup. Qed.

Lemma available_below (mask : num) (i : nat) : In i (available mask) -> (i < 9)%nat.
Proof.
  unfold available. intros H. apply filter_In in H as [H _].
  apply in_seq in H. change (List.length DEFAULT_THEMES) with 9%nat in H. lia.
Qed.

Lemma filter_out_length (l : list nat) (x : nat) :
  NoDup l -> In x l ->
  S (List.length (filter (fun i => negb (Nat.eqb i x)) l)) = List.length l.
Proof.
  induction l as [|a l IH]; intros Hnd Hin; [destruct Hin|].
  inversion Hnd as [|? ? Hna Hnd']; subst. simpl.
  destruct (Nat.eqb a x) eqn:E.
  - apply Nat.eqb_eq in E. subst a. simpl. f_equal.
    clear IH Hin Hnd Hnd'. induction l as [|b l IH]; [reflexivity|].
    simpl. destruct (Nat.eqb b x) eqn:E.
    + apply Nat.eqb_eq in E. subst b. exfalso. apply Hna. now left.
    + simpl. f_equal. apply IH. intros H. apply Hna. now right.
  - simpl. f_equal. apply IH; [assumption|].
    destruct Hin as [->|Hin]; [|assumption].
    rewrite Nat.eqb_refl in E. discriminate.
Qed.

Section Flow_lemmas.

Variable JSON_parse : string -> completion value.
Variable JSON_stringify : value -> completion string.
Variable ToNumber_object : value -> num.

Lemma seconds_only_nonneg (c : option Z) :
  (forall t, c = Some t -> 0 <= t) -> forall t, seconds_only c = Some t -> 0 <= t.
Proof.
  intros H t. destruct c as [t0|]; [|discriminate]. simpl.
  destruct (t0 =? 0); [discriminate|]. intros E. inversion E.
  pose proof (H t0 eq_refl). pose proof (Z.div_pos t0 1000). lia.
Qed.

(** A token of the compact grammar decodes to a compact state. *)
Lemma compact_decodes_to (s m1 : string) (m2 : option string) :
  legacy_fails JSON_parse s -> compact_token s m1 m2 ->
  decodes_to JSON_parse s (digits_value m1 0)
    (option_map (fun t => digits_value t 0 * 1000) m2).
Proof.
  intros Hl Hc. split.
  - intros t. destruct m2 as [d|]; [|discriminate]. simpl. intros E. inversion E.
    assert (Hd : forall_chars is_alnum d = true) by (inversion Hc; assumption).
    pose proof (digits_value_nonneg d 0 Hd). lia.
  - rewrite (decodeState_compact JSON_parse _ _ _ Hl Hc). unfold compact_value.
    destruct (compact_token_digits _ _ _ Hc) as [Ha Hne].
    rewrite (parseInt36_digits m1 Ha Hne), or_zero_int.
    destruct m2 as [d|]; [|reflexivity].
    assert (Hd : forall_chars is_alnum d = true /\ d <> "") by (inversion Hc; now split).
    destruct Hd as [Hd Hdn]. now rewrite (parseInt36_digits d Hd Hdn).
Qed.

(** The state encodeState writes decodes to the state it was given. *)
Lemma encoded_decodes_to (obj : value) (mask : Z) (c : option Z) :
  remaining obj = VNum (Int mask) -> 0 <= mask <= 511 ->
  createdAt obj = createdAt_value c -> (forall t, c = Some t -> 0 <= t) ->
  decodes_to JSON_parse (encodeState JSON_stringify ToNumber_object obj) mask (seconds_only c).
Proof.
  intros Hm Hmask Hc Ht. split; [now apply seconds_only_nonneg|].
  rewrite (decodeState_encodeState JSON_parse JSON_stringify ToNumber_object obj mask c)
    by assumption.
  destruct c as [t|]; [|reflexivity]. simpl. destruct (t =? 0); reflexivity.
Qed.

(** One draw on a decoded link and the link it publishes. *)
Lemma draw_step (state : string) (mask : Z) (c : option Z) (r : Q) (now : Z) :
  decodes_to JSON_parse state mask c -> 0 <= mask <= 511 -> mask <> 0 ->
  in_unit_interval r ->
  exists idx newMask newState enc,
    drawOne JSON_stringify ToNumber_object false (decodeState JSON_parse state) r now
    = Normal (Picked (Some idx) (theme idx) newState enc) /\
    In idx (available (Int mask)) /\
    0 <= newMask <= 511 /\
    newMask = Z.land mask (Z.lnot (Z.shiftl 1 (Z.of_nat idx))) /\
    available (Int newMask) = filter (fun i => negb (Nat.eqb i idx)) (available (Int mask)) /\
    decodes_to JSON_parse enc newMask (seconds_only c).
Proof.
  intros [Hc Hd] Hm Hnz [H0 H1]. rewrite Hd.
  set (decoded := VObj _).
  assert (Hne : available (Int mask) <> []).
  { intros E. apply Hnz. now apply available_nonempty. }
  destruct (drawOne_picks JSON_stringify ToNumber_object decoded (Int mask) r now
              eq_refl eq_refl Hne H0 H1) as (j & idx & _ & Hn & Hdraw).
  apply nth_error_In in Hn.
  destruct (clear_ok_spec mask idx Hm Hn) as (_ & _ & E & _ & _ & R).
  cbv zeta in Hdraw.
  eexists idx, _, _, _. split; [exact Hdraw|].
  split; [assumption|]. split; [exact R|]. split; [exact E|].
  split; [now apply available_after_clear|].
  apply encoded_decodes_to; [reflexivity | exact R | reflexivity | assumption].
Qed.

(** A chain of draws on a decoded link, no longer than what is available. *)
Lemma draw_chain_picks (draws : list (Q * Z)) :
  forall (state : string) (mask : Z) (c : option Z),
    decodes_to JSON_parse state mask c -> 0 <= mask <= 511 ->
    (List.length draws <= List.length (available (Int mask)))%nat ->
    Forall (fun d => in_unit_interval (fst d)) draws ->
    exists idxs mask' c',
      map picked_index
        (fst (draw_chain JSON_parse JSON_stringify ToNumber_object state draws))
      = map Some idxs /\
      map picked_label
        (fst (draw_chain JSON_parse JSON_stringify ToNumber_object state draws))
      = map (fun i => Some (theme i)) idxs /\
      List.length idxs = List.length draws /\
      NoDup idxs /\ incl idxs (available (Int mask)) /\
      decodes_to JSON_parse
        (snd (draw_chain JSON_parse JSON_stringify ToNumber_object state draws)) mask' c' /\
      0 <= mask' <= 511 /\
      (List.length (available (Int mask')) + List.length draws
       = List.length (available (Int mask)))%nat /\
      (forall i, In i (available (Int mask')) <->
                 In i (available (Int mask)) /\ ~ In i idxs).
Proof.
  induction draws as [|[r now] rest IH]; intros state mask c Hd Hm Hlen Hr.
  - exists [], mask, c. simpl.
    split; [reflexivity|]. split; [reflexivity|]. split; [reflexivity|].
    split; [constructor|]. split; [intros i H; destruct H|].
    split; [assumption|]. split; [assumption|]. split; [lia|].
    intros i. tauto.
  - inversion Hr as [|? ? Hr0 Hrest]; subst. simpl in Hr0.
    assert (Hnz : mask <> 0).
    { intros E. apply (available_nonempty mask Hm) in E. rewrite E in Hlen.
      simpl in Hlen. lia. }
    destruct (draw_step state mask c r now Hd Hm Hnz Hr0)
      as (idx & newMask & newState & enc & Hdraw & Hin & Hnm & _ & Hav & Hnext).
    assert (Hl : S (List.length (available (Int newMask))) = List.length (available (Int mask))).
    { rewrite Hav. apply filter_out_length; [apply available_NoDup | assumption]. }
    destruct (IH enc newMask (seconds_only c) Hnext Hnm) as
      (idxs & mask' & c' & P1 & P2 & P3 & P4 & P5 & P6 & P7 & P8 & P9);
      [simpl in Hlen; lia | assumption |].
    assert (Hsub : forall i, In i (available (Int newMask)) <->
                             In i (available (Int mask)) /\ i <> idx).
    { intros i. rewrite Hav, filter_In, negb_true_iff, Nat.eqb_neq. tauto. }
    exists (idx :: idxs), mask', c'.
    cbn [draw_chain]. rewrite Hdraw.
    destruct (draw_chain JSON_parse JSON_stringify ToNumber_object enc rest)
      as [results last] eqn:Ech.
    simpl fst in *. simpl snd in *.
    split; [simpl; now rewrite P1|].
    split; [simpl; now rewrite P2|].
    split; [simpl; now rewrite P3|].
    split.
    { constructor; [|assumption]. intros Hi. apply P5, Hsub in Hi. tauto. }
    split.
    { intros i [<-|Hi]; [assumption|]. apply P5, Hsub in Hi. tauto. }
    split; [assumption|]. split; [assumption|].
    split; [simpl; lia|].
    intros i. rewrite P9, Hsub. simpl. split.
    + intros [[H1 H2] H3]. split; [assumption|]. intros [E|E]; [now subst | contradiction].
    + intros [H1 H2]. split; [split; [assumption|]|].
      * intros E. apply H2. now left.
      * intros E. apply H2. now right.
Qed.

End Flow_lemmas.

(** ** createInitialLink *)

(** X5.  The click on "Create link" never ends in the alert: the encoded
    state is never empty.  At a time that is not negative the state it
    pushes decodes to the full pool: the mask 2^9 - 1, the nine entries of
    the pool in order, and the time of the click cut to whole seconds
    (no creation time at all for the time 0). *)
Theorem createInitialLink_full_pool
  (JSON_parse : string -> completion value)
  (JSON_stringify : value -> completion string) (ToNumber_object : value -> num)
  (now : Z) :
  0 <= now ->
  let enc := createInitialLink JSON_stringify ToNumber_object now in
  (forall t, createInitialLink_click JSON_stringify ToNumber_object t
             = Pushed (createInitialLink JSON_stringify ToNumber_object t)) /\
  enc = "me7" ++ (if now =? 0 then "" else ".t" ++ nat36 (now / 1000)) /\
  decodeState JSON_parse enc =
    VObj [("mask", VNum (Int 511));
          ("items", VArr (map pool_item (seq 0 9)));
          ("meta", VObj [("createdAt",
                          if now =? 0 then VUndefined else VNum (Int (now / 1000 * 1000)))])].
Proof.
  intros Hnow enc. split; [|split].
  - intros t. unfold createInitialLink_click, createInitialLink. cbv zeta.
    rewrite (encodeState_mask JSON_stringify ToNumber_object (initial_payload t) (Int full_mask))
      by reflexivity.
    reflexivity.
  - unfold enc, createInitialLink.
    rewrite (encodeState_draw_state JSON_stringify ToNumber_object (initial_payload now)
               511 (Some now)); try reflexivity; [lia|].
    intros t E. inversion E. now subst.
  - unfold enc, createInitialLink.
    rewrite (decodeState_encodeState JSON_parse JSON_stringify ToNumber_object
               (initial_payload now) 511 (Some now)); try reflexivity; [lia|].
    intros t E. inversion E. now subst.
Qed.

(** The link of a click in 2024. *)
Lemma createInitialLink_full_pool_witness :
  0 <= 1730000000123 /\
  (forall jp js tn,
     createInitialLink js tn 1730000000123 = "me7.tslzwjk" /\
     remaining (decodeState jp (createInitialLink js tn 1730000000123)) = VNum (Int 511)).
Proof.
  split; [lia|]. intros jp js tn.
  destruct (createInitialLink_full_pool jp js tn 1730000000123) as (_ & E & D); [lia|].
  split; [exact E | now rewrite D].
Defined.

(** ** One draw, and the link it leaves *)

(** X6.  A draw on the state of a compact token with a mask in
    [1, 2^9 - 1] shows the label of one of the listed items and publishes a
    token that decodes again: to the same mask without the bit of the pick,
    and to the same list of items without the item of the pick, the others
    in their order. *)
Theorem draw_then_decode
  (JSON_parse : string -> completion value)
  (JSON_stringify : value -> completion string) (ToNumber_object : value -> num)
  (s m1 : string) (m2 : option string) (r : Q) (now : Z) :
  legacy_fails JSON_parse s -> compact_token s m1 m2 ->
  0 < digits_value m1 0 <= 511 -> in_unit_interval r ->
  let mask := digits_value m1 0 in
  let decoded := decodeState JSON_parse s in
  exists idx newState enc,
    drawOne JSON_stringify ToNumber_object false decoded r now
    = Normal (Picked (Some idx) (theme idx) newState enc) /\
    In (pool_item idx) (map pool_item (available (Int mask))) /\
    get_opt decoded "items" = VArr (map pool_item (available (Int mask))) /\
    remaining (decodeState JSON_parse enc)
    = VNum (Int (Z.land mask (Z.lnot (Z.shiftl 1 (Z.of_nat idx))))) /\
    get_opt (decodeState JSON_parse enc) "items"
    = VArr (map pool_item (filter (fun i => negb (Nat.eqb i idx)) (available (Int mask)))).
Proof.
  intros Hl Hc Hm Hr mask decoded.
  pose proof (compact_decodes_to JSON_parse s m1 m2 Hl Hc) as Hd.
  assert (Hm' : 0 <= mask <= 511) by (unfold mask; lia).
  assert (Hnz : mask <> 0) by (unfold mask; lia).
  destruct (draw_step JSON_parse JSON_stringify ToNumber_object s mask _ r now
              Hd Hm' Hnz Hr)
    as (idx & newMask & newState & enc & Hdraw & Hin & _ & E & Hav & [_ Hnext]).
  exists idx, newState, enc.
  split; [exact Hdraw|].
  split; [now apply in_map|].
  split.
  { unfold decoded. destruct Hd as [_ Hd]. rewrite Hd. simpl.
    now rewrite compact_items_available. }
  rewrite Hnext. split.
  - unfold remaining. simpl. now rewrite E.
  - simpl. now rewrite compact_items_available, Hav.
Qed.

(** A draw on the full pool with [Math.random()] = 1/2 takes Pool[4]. *)
Lemma draw_then_decode_witness :
  compact_token "me7" "e7" None /\ 0 < digits_value "e7" 0 <= 511 /\
  in_unit_interval (1 # 2) /\
  (forall jp js tn,
     exists idx newState enc,
       drawOne js tn false (decodeState jp "me7") (1 # 2) 0
       = Normal (Picked (Some idx) (theme idx) newState enc) /\
       get_opt (decodeState jp enc) "items"
       = VArr (map pool_item
                 (filter (fun i => negb (Nat.eqb i idx)) (available (Int (digits_value "e7" 0)))))).
Proof.
  assert (C : compact_token "me7" "e7" None) by (apply match_compact_iff; reflexivity).
  assert (R : in_unit_interval (1 # 2)) by (split; [discriminate | reflexivity]).
  assert (M : 0 < digits_value "e7" 0 <= 511) by (vm_compute; split; [reflexivity | discriminate]).
  split; [assumption|]. split; [assumption|]. split; [assumption|].
  intros jp js tn.
  destruct (draw_then_decode jp js tn "me7" "e7" None (1 # 2) 0)
    as (idx & newState & enc & D & _ & _ & _ & I); try assumption.
  - left. reflexivity.
  - exists idx, newState, enc. split; assumption.
Defined.

(** ** A chain of draws *)

(** X7.  From the state of a compact token with a mask in [0, 2^9 - 1],
    as many draws in a row as the mask has bits, each on the link the one
    before published, all pick: the indices they pick are the available
    ones, each exactly once, the labels shown are those of the pool at these
    indices, and the chain ends on a link with the mask 0, on which every
    further draw finds nothing. *)
Theorem draws_exhaust_the_pool
  (JSON_parse : string -> completion value)
  (JSON_stringify : value -> completion string) (ToNumber_object : value -> num)
  (s m1 : string) (m2 : option string) (draws : list (Q * Z)) :
  legacy_fails JSON_parse s -> compact_token s m1 m2 ->
  digits_value m1 0 <= 511 ->
  List.length draws = List.length (available (Int (digits_value m1 0))) ->
  Forall (fun d => in_unit_interval (fst d)) draws ->
  let chain := draw_chain JSON_parse JSON_stringify ToNumber_object s draws in
  exists idxs,
    map picked_index (fst chain) = map Some idxs /\
    map picked_label (fst chain) = map (fun i => Some (theme i)) idxs /\
    Permutation idxs (available (Int (digits_value m1 0))) /\
    remaining (decodeState JSON_parse (snd chain)) = VNum (Int 0) /\
    (forall r now,
       drawOne JSON_stringify ToNumber_object false (decodeState JSON_parse (snd chain)) r now
       = Normal Exhausted).
Proof.
  intros Hl Hc Hm Hlen Hr chain.
  pose proof (compact_decodes_to JSON_parse s m1 m2 Hl Hc) as Hd.
  assert (Hm' : 0 <= digits_value m1 0 <= 511).
  { split; [|assumption]. apply digits_value_nonneg; [|lia].
    apply (compact_token_digits _ _ _ Hc). }
  destruct (draw_chain_picks JSON_parse JSON_stringify ToNumber_object draws s _ _
              Hd Hm' ltac:(lia) Hr)
    as (idxs & mask' & c' & P1 & P2 & P3 & P4 & P5 & [_ P6] & P7 & P8 & _).
  fold chain in P1, P2, P6.
  assert (Hz : mask' = 0).
  { apply (available_nonempty mask' P7).
    destruct (available (Int mask')); [reflexivity | simpl in P8; lia]. }
  subst mask'.
  exists idxs. split; [assumption|]. split; [assumption|]. split.
  - apply NoDup_Permutation_bis; [assumption | lia | assumption].
  - rewrite P6. split; [reflexivity|]. intros r now. reflexivity.
Qed.

(** Nine draws from the full pool. *)
Lemma draws_exhaust_the_pool_witness :
  compact_token "me7" "e7" None /\
  (forall jp js tn,
     exists idxs,
       map picked_index
         (fst (draw_chain jp js tn "me7"
                 [(0 # 1, 0); (1 # 2, 0); (0 # 1, 0); (1 # 3, 0); (0 # 1, 0);
                  (2 # 3, 0); (0 # 1, 0); (1 # 2, 0); (0 # 1, 0)]))
       = map Some idxs /\
       Permutation idxs (available (Int (digits_value "e7" 0)))).
Proof.
  assert (C : compact_token "me7" "e7" None) by (apply match_compact_iff; reflexivity).
  split; [assumption|]. intros jp js tn.
  destruct (draws_exhaust_the_pool jp js tn "me7" "e7" None
              [(0 # 1, 0); (1 # 2, 0); (0 # 1, 0); (1 # 3, 0); (0 # 1, 0);
               (2 # 3, 0); (0 # 1, 0); (1 # 2, 0); (0 # 1, 0)])
    as (idxs & P1 & _ & P3 & _); try assumption.
  - left. reflexivity.
  - vm_compute. discriminate.
  - reflexivity.
  - repeat constructor; simpl; discriminate.
  - exists idxs. split; assumption.
Defined.

(** ** A decoded state, encoded again *)



(** With time digits that denote 0 the creation time 0 is lost on the way. *)
Lemma decoded_time_zero_is_lost :
  (forall jp, createdAt (decodeState jp "m5.t0") = VNum (Int 0)) /\
  (forall jp js tn,
     createdAt (decodeState jp (encodeState js tn (decodeState jp "m5.t0"))) = VUndefined).
Proof. split; reflexivity. Qed.

(** ** drawOne on a legacy payload *)

Lemma ToInt32_small (z : Z) : 0 <= z < 2 ^ 31 -> ToInt32 z = z.
Proof.
  intros H. unfold ToInt32. cbv zeta.
  rewrite Z.mod_small by lia.
  destruct (z <? 2 ^ 31) eqn:E; [reflexivity | apply Z.ltb_ge in E; lia].
Qed.

(** [(mask >> i) & 1] is bit [i] of the mask, for the 32 bits there are. *)
Lemma bit_set_Int (r : Z) (i : nat) :
  (i < 32)%nat -> bit_set (Int r) i = Z.testbit r (Z.of_nat i).
Proof.
  intros Hi. unfold bit_set, band, sar, index_num. simpl ToInt32_num.
  rewrite (ToInt32_small (Z.of_nat i)) by lia.
  rewrite (ToInt32_small 1) by lia.
  rewrite (Z.mod_small (Z.of_nat i) 32) by lia.
  change 1 with (Z.ones 1) at 1. rewrite Z.land_ones by lia.
  change (2 ^ 1) with 2. rewrite <- Z.bit0_mod.
  rewrite ToInt32_testbit by lia.
  rewrite Z.shiftr_spec by lia. rewrite Z.add_0_l.
  rewrite ToInt32_testbit by lia.
  destruct (Z.testbit r (Z.of_nat i)); reflexivity.
Qed.

Lemma get_truthy (v : value) (k : string) :
  truthy v = true -> get v k = Normal (get_opt v k).
Proof. destruct v; try discriminate; reflexivity. Qed.

Lemma pick_In (avail : list nat) (r : Q) (idx : nat) :
  pick avail r = Some idx -> In idx avail.
Proof.
  unfold pick. cbv zeta. destruct (_ <? 0); [discriminate|]. apply nth_error_In.
Qed.

(** What the draw picked was available. *)
Lemma drawOne_picked_available
  (JSON_stringify : value -> completion string) (ToNumber_object : value -> num)
  (decoded : value) (r : Q) (now : Z) (idx : nat) (label newState : value) (enc : string) :
  drawOne JSON_stringify ToNumber_object false decoded r now
  = Normal (Picked (Some idx) label newState enc) ->
  exists mask, state_mask decoded = Normal mask /\ In idx (available mask).
Proof.
  unfold drawOne. destruct (negb (truthy decoded)); [discriminate|]. simpl orb. cbv iota.
  destruct (state_mask decoded) as [mask|]; [|discriminate]. unfold bind.
  destruct (available mask) as [|a l] eqn:Ha; [discriminate|]. cbv zeta.
  destruct (pick (a :: l) r) as [i|] eqn:Hp; [|discriminate].
  intros H. inversion H; subst. exists mask. split; [reflexivity|].
  rewrite Ha. now apply (pick_In _ r).
Qed.

Lemma state_mask_legacy (decoded : value) (xs : list value) :
  truthy decoded = true -> is_number (get_opt decoded "mask") = false ->
  get_opt decoded "items" = VArr xs ->
  state_mask decoded = bind (reduce_mask (VArr xs) xs 0%nat 0) (fun r => Normal (Int r)).
Proof.
  intros Ht Hm Hi. unfold state_mask.
  rewrite !(get_truthy _ _ Ht), Hi. cbn [bind truthy].
  destruct (get_opt decoded "mask"); try reflexivity. discriminate.
Qed.

(** X9.  On a legacy payload (no numeric [mask]) whose [items] is an array,
    drawOne never picks an index at or beyond the number of items: the mask
    it rebuilds has a bit only at a position of that array. *)
Theorem legacy_pick_below_items
  (JSON_stringify : value -> completion string) (ToNumber_object : value -> num)
  (decoded : value) (xs : list value) (r : Q) (now : Z)
  (idx : nat) (label newState : value) (enc : string) :
  is_number (get_opt decoded "mask") = false ->
  get_opt decoded "items" = VArr xs ->
  drawOne JSON_stringify ToNumber_object false decoded r now
  = Normal (Picked (Some idx) label newState enc) ->
  (idx < List.length xs)%nat /\ (idx < 9)%nat.
Proof.
  intros Hm Hi Hd.
  assert (Ht : truthy decoded = true).
  { destruct decoded; try discriminate; reflexivity. }
  destruct (drawOne_picked_available _ _ _ _ _ _ _ _ _ Hd) as (mask & Hs & Hin).
  pose proof (available_below _ _ Hin) as H9. split; [|assumption].
  rewrite (state_mask_legacy decoded xs Ht Hm Hi) in Hs.
  destruct (reduce_mask (VArr xs) xs 0%nat 0) as [z|] eqn:Hr; [|discriminate].
  simpl in Hs. inversion Hs; subst mask.
  destruct (Nat.lt_ge_cases idx (List.length xs)) as [|Hge]; [assumption|].
  exfalso.
  pose proof (reduce_mask_positions _ _ _ _ _ Hr idx ltac:(simpl; lia) (Z.testbit_0_l _)) as Hb.
  unfold available in Hin. apply filter_In in Hin as [_ Hin].
  rewrite bit_set_Int in Hin by lia. congruence.
Qed.

(** A payload that lists all of the pool but Pool[0]: a draw picks below 8. *)
Lemma legacy_pick_below_items_witness :
  (forall js tn,
     drawOne js tn false
       (VObj [("items",
               VArr (map (fun label => VObj [("id", VStr "x"); ("label", VStr label)])
                       (tl DEFAULT_THEMES)))])
       (9 # 10) 0
     = Normal (Picked (Some 7%nat) (VStr "Soccer")
                 (VObj [("mask", VNum (Int 126)); ("meta", VObj [("createdAt", VNum (Int 0))])])
                 "m3i")) /\
  (7 < 8)%nat /\ (7 < 9)%nat.
Proof.
  split; [reflexivity|].
  apply (legacy_pick_below_items (fun _ => Throw) (fun _ => NaN)
           (VObj [("items",
                   VArr (map (fun label => VObj [("id", VStr "x"); ("label", VStr label)])
                           (tl DEFAULT_THEMES)))])
           (map (fun label => VObj [("id", VStr "x"); ("label", VStr label)])
              (tl DEFAULT_THEMES))
           (9 # 10) 0 7%nat (VStr "Soccer")
           (VObj [("mask", VNum (Int 126)); ("meta", VObj [("createdAt", VNum (Int 0))])])
           "m3i"); reflexivity.
Defined.

Lemma item_matches_object (i : nat) (fields : list (string * value)) :
  exists b, item_matches i (VObj fields) = Normal b.
Proof.
  unfold item_matches. simpl.
  destruct (strict_eq_str (lookup "id" fields) (String_of_index i)); [now exists true|].
  destruct (theme i); eexists; reflexivity.
Qed.

Lemma some_objects (i : nat) (xs : list value) :
  forallb is_object xs = true -> exists b, some (item_matches i) xs = Normal b.
Proof.
  induction xs as [|x xs IH]; intros H; [now exists false|].
  simpl in H. apply andb_true_iff in H as [Hx Hxs].
  destruct x; try discriminate.
  cbn [some]. destruct (item_matches_object i fields) as [b ->]. simpl bind.
  destruct b; [now exists true | now apply IH].
Qed.

Lemma reduce_mask_objects (xs arr : list value) (i : nat) (acc : Z) :
  forallb is_object xs = true -> exists r, reduce_mask (VArr xs) arr i acc = Normal r.
Proof.
  intros H. revert i acc. induction arr as [|x arr IH]; intros i acc; [now exists acc|].
  simpl. destruct (some_objects i xs H) as [b ->]. simpl. apply IH.
Qed.

Lemma reduce_mask_nullish (items : value) (arr : list value) (i : nat) (acc : Z) :
  nullish items = true -> reduce_mask items arr i acc = Normal acc.
Proof.
  intros H. revert i acc. induction arr as [|x arr IH]; intros i acc; [reflexivity|].
  simpl. destruct items; try discriminate; simpl; apply IH.
Qed.

(** X10.  What drawOne does with the [items] of a legacy payload (a value
    that is there, without a numeric [mask]).  Without [items], or with an
    empty array, it finds nothing available.  With an array of objects it
    returns.  With [items] that is neither missing nor an array it throws,
    and so it does with an array that starts with [null]. *)
Theorem legacy_items_cases
  (JSON_stringify : value -> completion string) (ToNumber_object : value -> num)
  (decoded : value) (r : Q) (now : Z) :
  truthy decoded = true -> is_number (get_opt decoded "mask") = false ->
  let result := drawOne JSON_stringify ToNumber_object false decoded r now in
  (nullish (get_opt decoded "items") = true -> result = Normal Exhausted) /\
  (get_opt decoded "items" = VArr [] -> result = Normal Exhausted) /\
  (forall xs, get_opt decoded "items" = VArr xs -> forallb is_object xs = true ->
              exists res, result = Normal res) /\
  (nullish (get_opt decoded "items") = false ->
   (forall xs, get_opt decoded "items" <> VArr xs) -> result = Throw) /\
  (forall x xs, get_opt decoded "items" = VArr (x :: xs) -> nullish x = true ->
                result = Throw).
Proof.
  intros Ht Hm result.
  assert (D : result = bind (state_mask decoded)
                         (fun mask =>
                            match available mask with
                            | [] => Normal Exhausted
                            | _ =>
                                let idx := pick (available mask) r in
                                let idx_num := match idx with
                                               | Some i => index_num i
                                               | None => NaN
                                               end in
                                let pickLabel := match idx with
                                                 | Some i => theme i
                                                 | None => VUndefined
                                                 end in
                                let newMask :=
                                  band mask (Int (bnot (Int (shl (Int 1) idx_num)))) in
                                let meta0 := get_opt decoded "meta" in
                                let meta := if nullish meta0
                                            then VObj [("createdAt", VNum (Int now))]
                                            else meta0 in
                                let newState :=
                                  VObj [("mask", VNum (Int newMask)); ("meta", meta)] in
                                Normal (Picked idx pickLabel newState
                                          (encodeState JSON_stringify ToNumber_object newState))
                            end)).
  { unfold result, drawOne. now rewrite Ht. }
  assert (S : state_mask decoded =
              match get_opt decoded "items" with
              | VArr xs => bind (reduce_mask (VArr xs) xs 0%nat 0) (fun z => Normal (Int z))
              | VUndefined | VNull => Normal (Int 0)
              | _ => Throw
              end).
  { unfold state_mask. rewrite !(get_truthy _ _ Ht). cbn [bind].
    destruct (get_opt decoded "mask"); try discriminate;
      destruct (get_opt decoded "items") as [| | ib | inum | istr | ixs | ifields];
      try reflexivity;
      try (destruct ib; reflexivity);
      try (destruct inum as [|z]; [reflexivity | simpl; destruct (z =? 0); reflexivity]);
      try (destruct istr; reflexivity). }
  rewrite D, S. repeat split.
  - intros Hn. destruct (get_opt decoded "items"); try discriminate; reflexivity.
  - intros ->. reflexivity.
  - intros xs -> Hx. destruct (reduce_mask_objects xs xs 0%nat 0 Hx) as [z ->].
    simpl bind. destruct (available (Int z)); eexists; reflexivity.
  - intros Hn Ha. destruct (get_opt decoded "items") as [| | ib | inum | istr | ixs | ifields];
      try discriminate; try reflexivity.
    now destruct (Ha ixs).
  - intros x xs -> Hx. destruct x; try discriminate; reflexivity.
Qed.

(** The legacy payload of the examples: an array of objects. *)
Lemma legacy_items_cases_witness :
  truthy legacy_payload_2_5 = true /\
  is_number (get_opt legacy_payload_2_5 "mask") = false /\
  (forall js tn, exists res, drawOne js tn false legacy_payload_2_5 (1 # 2) 0 = Normal res).
Proof.
  split; [reflexivity|]. split; [reflexivity|]. intros js tn.
  destruct (legacy_items_cases js tn legacy_payload_2_5 (1 # 2) 0 eq_refl eq_refl)
    as (_ & _ & H & _).
  apply (H _ eq_refl). reflexivity.
Defined.

(** ** Strings that start with a lower-case m *)

Lemma sextet_range (c : ascii) : 0 <= sextet c < 64.
Proof.
  assert (A : forallb (fun z => (0 <=? sextet (chr z)) && (sextet (chr z) <? 64))
                (zrange 256) = true) by (vm_compute; reflexivity).
  pose proof (forallb_zrange _ _ A (code c) (code_range c)) as B. cbv beta in B.
  rewrite chr_code in B. apply andb_true_iff in B as [B1 B2].
  apply Z.leb_le in B1. apply Z.ltb_lt in B2. lia.
Qed.

Lemma m_not_whitespace (c : ascii) :
  (code c =? 109) = true ->
  is_ascii_whitespace c = false /\ url_unsafe c = c /\ sextet c = 38.
Proof. all_chars c. Qed.

Lemma drop_last_cons (c x : ascii) (s : string) :
  drop_last (String c (String x s)) = String c (drop_last (String x s)).
Proof. reflexivity. Qed.

(** Stripping the padding leaves the first character, and more than it when
    the length allows a decoding. *)
Lemma strip_padding_head (c : ascii) (t : string) :
  exists t', strip_padding (String c t) = String c t'.
Proof.
  unfold strip_padding.
  destruct ((len (String c t) mod 4 =? 0) && ends_with_eq (String c t)) eqn:E;
    [|now exists t].
  apply andb_true_iff in E as [E _]. apply Z.eqb_eq in E.
  destruct t as [|x [|y t]].
  - discriminate.
  - discriminate.
  - rewrite drop_last_cons.
    destruct (ends_with_eq (String c (drop_last (String x (String y t))))).
    + rewrite drop_last_cons. destruct (drop_last (String y t)) eqn:D.
      * destruct t; [|discriminate]. discriminate.
      * rewrite drop_last_cons. eexists. reflexivity.
    + eexists. reflexivity.
Qed.

Lemma b64_bytes_head_m (c x : ascii) (t : string) :
  sextet c = 38 ->
  exists b rest, b64_bytes (String c (String x t)) = String b rest /\
                 128 <= code b < 192.
Proof.
  intros Hc. pose proof (sextet_range x) as Hx.
  assert (K : forall z, 152 <= z <= 155 -> 128 <= code (chr z) < 192).
  { intros z Hz.
    assert (A : forallb (fun z => (128 <=? code (chr (152 + z))) && (code (chr (152 + z)) <? 192))
                  (zrange 4) = true) by (vm_compute; reflexivity).
    pose proof (forallb_zrange _ _ A (z - 152) ltac:(simpl; lia)) as B. cbv beta in B.
    replace (152 + (z - 152)) with z in B by lia.
    apply andb_true_iff in B as [B1 B2]. apply Z.leb_le in B1. apply Z.ltb_lt in B2. lia. }
  destruct t as [|y [|z t]].
  - cbn [b64_bytes]. cbv zeta. rewrite Hc. eexists _, _. split; [reflexivity|].
    apply K. Z.div_mod_to_equations; lia.
  - pose proof (sextet_range y). cbn [b64_bytes]. cbv zeta. rewrite Hc.
    eexists _, _. split; [reflexivity|]. apply K. Z.div_mod_to_equations; lia.
  - pose proof (sextet_range y). pose proof (sextet_range z).
    cbn [b64_bytes]. cbv zeta. rewrite Hc.
    eexists _, _. split; [reflexivity|]. apply K. Z.div_mod_to_equations; lia.
Qed.

Lemma decodeURIComponent_continuation (b : ascii) (rest : string) :
  128 <= code b < 192 -> decodeURIComponent (percent_all (String b rest)) = Throw.
Proof.
  intros H. unfold decodeURIComponent. rewrite unescape_percent_all.
  cbn [bind escs utf8_units].
  destruct (code b <? 128) eqn:E1; [apply Z.ltb_lt in E1; lia|].
  destruct (code b <? 192) eqn:E2; [reflexivity | apply Z.ltb_ge in E2; lia].
Qed.

(** The legacy attempt fails on every string that starts with [m]. *)
Lemma base64UrlDecode_m (s : string) : starts_with_m s = true -> base64UrlDecode s = None.
Proof.
  destruct s as [|c t]; [discriminate|]. simpl. intros Hm.
  destruct (m_not_whitespace c Hm) as (Hw & Hu & Hs).
  unfold base64UrlDecode. change (String.eqb (String c t) "") with false. cbv iota.
  assert (P : exists t1, pad4 (map_chars url_unsafe (String c t)) = String c t1).
  { unfold pad4. cbv zeta. simpl map_chars. rewrite Hu.
    repeat match goal with |- context [if ?b then _ else _] => destruct b end;
      eexists; reflexivity. }
  destruct P as [t1 ->]. unfold atob. cbv zeta.
  cbn [filter_chars]. rewrite Hw. cbn [negb].
  destruct (strip_padding_head c (filter_chars (fun x => negb (is_ascii_whitespace x)) t1))
    as [t2 ->].
  destruct (len (String c t2) mod 4 =? 1) eqn:E; [reflexivity|].
  destruct (forall_chars is_b64 (String c t2)); [|reflexivity]. cbn [negb].
  destruct t2 as [|x t2]; [discriminate|].
  destruct (b64_bytes_head_m c x t2 Hs) as (b & rest & -> & Hb).
  cbn [bind]. now rewrite (decodeURIComponent_continuation b rest Hb).
Qed.



(** ** When two states share a token *)

Lemma nat36_inj (a b : Z) : 0 <= a -> 0 <= b -> nat36 a = nat36 b -> a = b.
Proof.
  intros Ha Hb E.
  destruct (nat36_spec a Ha) as (Va & _). destruct (nat36_spec b Hb) as (Vb & _).
  rewrite E in Va. congruence.
Qed.

(** X12.  Two states with masks in [0, 2^9 - 1] and creation times that are
    absent or not negative get the same token from encodeState exactly when
    they have the same mask and the same second of creation, a creation time
    of 0 counting as none: the link tells what remains and when the game was
    created, and nothing else. *)
Theorem same_token_same_state
  (JSON_stringify : value -> completion string) (ToNumber_object : value -> num)
  (obj1 obj2 : value) (mask1 mask2 : Z) (c1 c2 : option Z) :
  remaining obj1 = VNum (Int mask1) -> 0 <= mask1 <= 511 ->
  createdAt obj1 = createdAt_value c1 -> (forall t, c1 = Some t -> 0 <= t) ->
  remaining obj2 = VNum (Int mask2) -> 0 <= mask2 <= 511 ->
  createdAt obj2 = createdAt_value c2 -> (forall t, c2 = Some t -> 0 <= t) ->
  encodeState JSON_stringify ToNumber_object obj1
  = encodeState JSON_stringify ToNumber_object obj2
  <-> mask1 = mask2 /\ token_second c1 = token_second c2.
Proof.
  intros R1 M1 C1 T1 R2 M2 C2 T2.
  pose proof (encodeState_draw_state JSON_stringify ToNumber_object obj1 mask1 c1
                R1 (proj1 M1) C1 T1) as E1.
  pose proof (encodeState_draw_state JSON_stringify ToNumber_object obj2 mask2 c2
                R2 (proj1 M2) C2 T2) as E2.
  split.
  - intros E.
    pose proof (decodeState_encodeState (fun _ => Throw) JSON_stringify ToNumber_object
                  obj1 mask1 c1 R1 M1 C1 T1) as D1.
    pose proof (decodeState_encodeState (fun _ => Throw) JSON_stringify ToNumber_object
                  obj2 mask2 c2 R2 M2 C2 T2) as D2.
    rewrite E, D2 in D1. inversion D1 as [[Hmask Hitems Hc]]. split; [congruence|].
    clear - Hc T1 T2.
    destruct c1 as [t1|], c2 as [t2|]; simpl in *;
      try destruct (t1 =? 0) eqn:Z1; try destruct (t2 =? 0) eqn:Z2;
      try reflexivity; try discriminate.
    inversion Hc as [H].
    pose proof (T1 t1 eq_refl). pose proof (T2 t2 eq_refl).
    f_equal. lia.
  - intros [-> Hs]. rewrite E1, E2. f_equal. f_equal.
    destruct c1 as [t1|], c2 as [t2|]; simpl in *;
      try destruct (t1 =? 0) eqn:Z1; try destruct (t2 =? 0) eqn:Z2;
      try reflexivity; try discriminate.
    inversion Hs as [H]. now rewrite H.
Qed.

(** Two clicks in the same second give the same link. *)
Lemma same_token_same_state_witness :
  0 <= 511 <= 511 /\
  (forall js tn,
     encodeState js tn (draw_state 511 (Some 1730000000123))
     = encodeState js tn (draw_state 511 (Some 1730000000999))).
Proof.
  split; [lia|]. intros js tn.
  apply (same_token_same_state js tn _ _ 511 511 (Some 1730000000123) (Some 1730000000999));
    try reflexivity; try lia.
  - intros t E. inversion E. lia.
  - intros t E. inversion E. lia.
  - split; reflexivity.
Defined.

(** ** Masks of any size *)

Lemma encodeState_starts_with_m
  (JSON_stringify : value -> completion string) (ToNumber_object : value -> num)
  (obj : value) (mask : num) :
  remaining obj = VNum mask ->
  starts_with_m (encodeState JSON_stringify ToNumber_object obj) = true.
Proof.
  intros H. now rewrite (encodeState_mask JSON_stringify ToNumber_object obj mask H).
Qed.



(** X14.  Whatever state a draw picks from, a legacy payload included, the
    state parameter it publishes is a compact one: it starts with a
    lower-case [m], the state behind it has a numeric mask, and no later
    decodeState reads it as a legacy payload. *)
Theorem draw_publishes_compact
  (JSON_parse : string -> completion value)
  (JSON_stringify : value -> completion string) (ToNumber_object : value -> num)
  (decoded : value) (r : Q) (now : Z)
  (idx : option nat) (label newState : value) (enc : string) :
  drawOne JSON_stringify ToNumber_object false decoded r now
  = Normal (Picked idx label newState enc) ->
  is_number (remaining newState) = true /\
  enc = encodeState JSON_stringify ToNumber_object newState /\
  starts_with_m enc = true /\
  base64UrlDecode enc = None /\
  decodeState JSON_parse enc = match compact_state enc with Some v => v | None => VNull end.
Proof.
  unfold drawOne. destruct (false || negb (truthy decoded)); [discriminate|].
  destruct (state_mask decoded) as [mask|]; [|discriminate]. unfold bind.
  destruct (available mask) as [|a l]; [discriminate|]. cbv zeta.
  intros H. inversion H as [[Hi Hl Hs He]]. clear H.
  set (st := VObj _) in *.
  assert (Hr : remaining st = VNum (Int (band mask (Int (bnot (Int (shl (Int 1)
                 match pick (a :: l) r with Some i => index_num i | None => NaN end)))))))
    by reflexivity.
  pose proof (encodeState_starts_with_m JSON_stringify ToNumber_object st _ Hr) as Hm.
  pose proof (base64UrlDecode_m _ Hm) as Hn.
  split; [now rewrite Hr|]. split; [reflexivity|]. split; [assumption|].
  split; [assumption|]. apply decodeState_fallback. now left.
Qed.

(** A draw on a legacy payload that lists Pool[0]. *)
Lemma draw_publishes_compact_witness :
  (forall js tn,
     drawOne js tn false
       (VObj [("items", VArr [VObj [("id", VStr "a"); ("label", VStr "Basketball")]])])
       (0 # 1) 1730000000123
     = Normal (Picked (Some 0%nat) (VStr "Basketball")
                 (VObj [("mask", VNum (Int 0));
                        ("meta", VObj [("createdAt", VNum (Int 1730000000123))])])
                 "m0.tslzwjk")) /\
  starts_with_m "m0.tslzwjk" = true /\ base64UrlDecode "m0.tslzwjk" = None.
Proof.
  split; [reflexivity|].
  destruct (draw_publishes_compact (fun _ => Throw) (fun _ => Throw) (fun _ => NaN)
              (VObj [("items", VArr [VObj [("id", VStr "a"); ("label", VStr "Basketball")]])])
              (0 # 1) 1730000000123 (Some 0%nat) (VStr "Basketball")
              (VObj [("mask", VNum (Int 0));
                     ("meta", VObj [("createdAt", VNum (Int 1730000000123))])])
              "m0.tslzwjk" eq_refl) as (_ & _ & A & B & _).
  split; assumption.
Defined.
